(** * Carmel Daily Check-In: the screen flow and the storage gateway

    A shallow embedding of [js/app.js] (the object [app]) and of
    [js/storage.js] (the object [storage]), followed by the properties of
    the specification that concern them.

    Conventions of the embedding.
    - Both objects are global mutable singletons running on one event
      loop.  Their fields, the three [localStorage] items, the pending
      auto-advance timers and the observable effects (alerts, confirms,
      status lines, downloads) are the fields of one record [world] that
      every operation takes and returns.
    - An [async] function is run to completion as one step: a rejected
      [fetch] is an outcome of the network oracle, not an interleaving.
      Where a property depends on what can run while a request is
      pending, [submit] is also given in its two halves around the
      await ([submit_begins], [submit_settles]), which compose to the
      one step.
    - A string is the byte sequence of its UTF-8 encoding.
    - What the environment decides is an argument: the element ids
      present in the page ([dom]), the outcome of the n-th [fetch]
      ([net]), the clock, the random suffix of an identifier, the answer
      to a [confirm] dialog.
    - [JSON.parse (JSON.stringify v)] is [v] for the values stored here
      (strings, integers, null, booleans, plain objects and arrays), so
      an item written by the program is kept in parsed form. *)

From Stdlib Require Import Ascii.
From stdpp Require Import gmap strings list pretty.

Open Scope Z_scope.

(** ** Values *)

(** The values an answer can hold: [null] (also standing for a missing
    property, which the code never tells apart from [null]), an integer
    number, a string. *)
Inductive jsval : Type :=
  | JNull
  | JNum (n : Z)
  | JStr (s : string).

#[global] Instance jsval_eq_dec : EqDecision jsval.
Proof. solve_decision. Defined.

(** JavaScript truthiness, as used by [||], [&&] and [if]. *)
Definition truthy (v : jsval) : bool :=
  match v with
  | JNull => false
  | JNum n => negb (bool_decide (n = 0))
  | JStr s => negb (bool_decide (s = ""))
  end.

(** [String(v)] as [Array.prototype.join] applies it to an element:
    [null] and [undefined] give the empty string. *)
Definition join_str (v : jsval) : string :=
  match v with
  | JNull => ""
  | JNum n => pretty n
  | JStr s => s
  end.

(** [arr.join(sep)] on an array of strings. *)
Fixpoint join (sep : string) (l : list string) : string :=
  match l with
  | [] => ""
  | [x] => x
  | x :: rest => x +:+ sep +:+ join sep rest
  end.

(** The answer set: a JavaScript object used as a map from field name to
    value ([responses[field] = value] with a dynamic [field]). *)
Abbreviation answers := (gmap string jsval).

(** [responses.field], with a missing property read as [null]. *)
Definition get (r : answers) (field : string) : jsval :=
  default JNull (r !! field).

(** The initial answer set of [app.state] and of [app.reset]. *)
Definition empty_responses : answers :=
  <["overall_day" := JNull]>
  (<["academic_focus" := JNull]>
  (<["social_interactions" := JNull]>
  (<["dysregulation_count" := JNull]>
  (<["used_coping_strategy" := JNull]>
  (<["free_response" := JStr ""]> ∅))))).

(** ** Records *)

Record metadata : Type := {
  completion_time_seconds : Z;
  device : string
}.

(** An entry as [app.submit] builds it. *)
Record entry : Type := {
  e_id : string;
  e_date : string;
  e_timestamp : string;
  e_responses : answers;
  e_metadata : metadata;
  e_synced : bool
}.

(** [entries[index].synced = true]. *)
Definition set_synced (e : entry) : entry :=
  {| e_id := e_id e; e_date := e_date e; e_timestamp := e_timestamp e;
     e_responses := e_responses e; e_metadata := e_metadata e;
     e_synced := true |}.

(** The object [saveProgress] writes, with its three keys.
    [p_startTime] is [None] for [null]. *)
Record progress : Type := {
  p_currentScreen : string;
  p_startTime : option Z;
  p_responses : answers
}.

(** A [localStorage] item that holds JSON text: either text that
    [JSON.parse] rejects with a [SyntaxError], or the value it parses to. *)
Inductive blob (A : Type) : Type :=
  | Malformed (raw : string)
  | Parsed (a : A).
Arguments Malformed {A} raw.
Arguments Parsed {A} a.

(** What the program does to the outside, in order of occurrence (most
    recent first in [log]). *)
Inductive effect : Type :=
  | Alert (message : string)
  | Confirm (message : string)
  | ShowStatus (elementId message type : string)
  | LocalCount (n : nat)
  | SetValue (elementId value : string)
  | Download (content filename mimeType : string)
  | ConsoleWarn (message : string)
  | ConsoleError (message : string).

(** The whole mutable state. *)
Record world : Type := {
  (* app.state *)
  currentScreen : string;
  startTime : option Z;
  responses : answers;
  (* storage.config.sheetsUrl *)
  sheetsUrl : string;
  (* localStorage: carmel_checkin_entries, _progress, _config.  The
     entries item is only ever written by [JSON.stringify] of an array of
     entries, so it is kept as that array. *)
  ls_entries : option (list entry);
  ls_progress : option (blob progress);
  ls_config : option (blob string);
  (* pending [setTimeout(() => this.goNext(), 300)] callbacks *)
  timers : nat;
  (* number of [fetch] calls made so far *)
  fetches : nat;
  log : list effect
}.

Definition set_currentScreen (x : string) (w : world) : world :=
  {| currentScreen := x; startTime := startTime w; responses := responses w;
     sheetsUrl := sheetsUrl w; ls_entries := ls_entries w;
     ls_progress := ls_progress w; ls_config := ls_config w;
     timers := timers w; fetches := fetches w; log := log w |}.

Definition set_startTime (x : option Z) (w : world) : world :=
  {| currentScreen := currentScreen w; startTime := x; responses := responses w;
     sheetsUrl := sheetsUrl w; ls_entries := ls_entries w;
     ls_progress := ls_progress w; ls_config := ls_config w;
     timers := timers w; fetches := fetches w; log := log w |}.

Definition set_responses (x : answers) (w : world) : world :=
  {| currentScreen := currentScreen w; startTime := startTime w; responses := x;
     sheetsUrl := sheetsUrl w; ls_entries := ls_entries w;
     ls_progress := ls_progress w; ls_config := ls_config w;
     timers := timers w; fetches := fetches w; log := log w |}.

Definition set_sheetsUrl (x : string) (w : world) : world :=
  {| currentScreen := currentScreen w; startTime := startTime w;
     responses := responses w;
     sheetsUrl := x; ls_entries := ls_entries w;
     ls_progress := ls_progress w; ls_config := ls_config w;
     timers := timers w; fetches := fetches w; log := log w |}.

Definition set_ls_entries (x : option (list entry)) (w : world) : world :=
  {| currentScreen := currentScreen w; startTime := startTime w;
     responses := responses w;
     sheetsUrl := sheetsUrl w; ls_entries := x;
     ls_progress := ls_progress w; ls_config := ls_config w;
     timers := timers w; fetches := fetches w; log := log w |}.

Definition set_ls_progress (x : option (blob progress)) (w : world) : world :=
  {| currentScreen := currentScreen w; startTime := startTime w;
     responses := responses w;
     sheetsUrl := sheetsUrl w; ls_entries := ls_entries w;
     ls_progress := x; ls_config := ls_config w;
     timers := timers w; fetches := fetches w; log := log w |}.

Definition set_ls_config (x : option (blob string)) (w : world) : world :=
  {| currentScreen := currentScreen w; startTime := startTime w;
     responses := responses w;
     sheetsUrl := sheetsUrl w; ls_entries := ls_entries w;
     ls_progress := ls_progress w; ls_config := x;
     timers := timers w; fetches := fetches w; log := log w |}.

Definition set_timers (x : nat) (w : world) : world :=
  {| currentScreen := currentScreen w; startTime := startTime w;
     responses := responses w;
     sheetsUrl := sheetsUrl w; ls_entries := ls_entries w;
     ls_progress := ls_progress w; ls_config := ls_config w;
     timers := x; fetches := fetches w; log := log w |}.

Definition set_fetches (x : nat) (w : world) : world :=
  {| currentScreen := currentScreen w; startTime := startTime w;
     responses := responses w;
     sheetsUrl := sheetsUrl w; ls_entries := ls_entries w;
     ls_progress := ls_progress w; ls_config := ls_config w;
     timers := timers w; fetches := x; log := log w |}.

(** Records one effect. *)
Definition emit (x : effect) (w : world) : world :=
  {| currentScreen := currentScreen w; startTime := startTime w;
     responses := responses w;
     sheetsUrl := sheetsUrl w; ls_entries := ls_entries w;
     ls_progress := ls_progress w; ls_config := ls_config w;
     timers := timers w; fetches := fetches w; log := x :: log w |}.

(** The result of an operation that can end in an uncaught exception:
    the world is the one at the point where it stopped. *)
Inductive completion : Type :=
  | Returns (w : world)
  | Throws (error : string) (w : world).

Definition world_of (c : completion) : world :=
  match c with Returns w => w | Throws _ w => w end.

(** The script's initial state: [app.state] and [storage.config] as the
    object literals give them, an empty [localStorage]. *)
Definition default_sheetsUrl : string :=
  "https://script.google.com/macros/s/AKfycbx0BHrK2r8X7K9NN5hW7q3wBVurCEyY9ZZWDw_gmaJH8j5162-8pohgNlbrJiDmMb30/exec".

Definition initial_world : world :=
  {| currentScreen := "screen-welcome"; startTime := None;
     responses := empty_responses;
     sheetsUrl := default_sheetsUrl; ls_entries := None;
     ls_progress := None; ls_config := None;
     timers := 0%nat; fetches := 0%nat; log := [] |}.

(** A settled promise: [fetch] resolved, or rejected with an error whose
    [message] is given. *)
Inductive settled : Type :=
  | Fulfilled
  | Rejected (message : string).

(** [s.trim()].  A string is kept as the bytes of its UTF-8 encoding.
    [trim] removes the white space and the line terminators of
    ECMAScript from both ends: the ASCII ones (codes 9 to 13 and 32) and
    U+00A0, U+1680, U+2000 to U+200A, U+2028, U+2029, U+202F, U+205F,
    U+3000 and U+FEFF. *)

(** U+00A0 is the two bytes C2 A0. *)
Definition is_space2 (b1 b2 : ascii) : bool :=
  (nat_of_ascii b1 =? 194)%nat && (nat_of_ascii b2 =? 160)%nat.

(** The white space of three bytes: E1 9A 80 (U+1680), E2 80 80 to
    E2 80 8A (U+2000 to U+200A), E2 80 A8, E2 80 A9 and E2 80 AF
    (U+2028, U+2029, U+202F), E2 81 9F (U+205F), E3 80 80 (U+3000) and
    EF BB BF (U+FEFF). *)
Definition is_space3 (b1 b2 b3 : ascii) : bool :=
  let n1 := nat_of_ascii b1 in
  let n2 := nat_of_ascii b2 in
  let n3 := nat_of_ascii b3 in
  ((n1 =? 225) && (n2 =? 154) && (n3 =? 128)
   || (n1 =? 226) && (n2 =? 128) &&
      ((128 <=? n3) && (n3 <=? 138) || (n3 =? 168) || (n3 =? 169) || (n3 =? 175))
   || (n1 =? 226) && (n2 =? 129) && (n3 =? 159)
   || (n1 =? 227) && (n2 =? 128) && (n3 =? 128)
   || (n1 =? 239) && (n2 =? 187) && (n3 =? 191))%nat.

Fixpoint trimStart (s : string) : string :=
  match s with
  | String b1 rest1 =>
      if Ascii.is_space b1 then trimStart rest1
      else
        match rest1 with
        | String b2 rest2 =>
            if is_space2 b1 b2 then trimStart rest2
            else
              match rest2 with
              | String b3 rest3 =>
                  if is_space3 b1 b2 b3 then trimStart rest3 else s
              | EmptyString => s
              end
        | EmptyString => s
        end
  | EmptyString => EmptyString
  end.

(** [trimStart] read from the end: [s] holds the bytes in reverse order,
    so the last byte of a character comes first. *)
Fixpoint trimStart_reversed (s : string) : string :=
  match s with
  | String b1 rest1 =>
      if Ascii.is_space b1 then trimStart_reversed rest1
      else
        match rest1 with
        | String b2 rest2 =>
            if is_space2 b2 b1 then trimStart_reversed rest2
            else
              match rest2 with
              | String b3 rest3 =>
                  if is_space3 b3 b2 b1 then trimStart_reversed rest3 else s
              | EmptyString => s
              end
        | EmptyString => s
        end
  | EmptyString => EmptyString
  end.

Definition trimEnd (s : string) : string :=
  String.rev (trimStart_reversed (String.rev s)).

Definition trim (s : string) : string := trimEnd (trimStart s).

(** The double-quote character (code 34), and the global [replace] of
    the CSV export that doubles each occurrence of it. *)
Definition dquote : ascii := ascii_of_nat 34.

Fixpoint double_quotes (s : string) : string :=
  match s with
  | String c rest =>
      if decide (c = dquote) then String dquote (String dquote (double_quotes rest))
      else String c (double_quotes rest)
  | EmptyString => EmptyString
  end.

(** ** The storage gateway ([js/storage.js]) *)

Module storage.
Section gateway.

(** [dom id]: [document.getElementById(id)] finds an element.  The page
    itself ([index.html]) is not part of the sources. *)
Variable dom : string → bool.
(** [net n]: how the n-th [fetch] of the session settles. *)
Variable net : nat → settled.
(** [JSON.stringify(entries, null, 2)], used by the JSON export only. *)
Variable stringify_pretty : list entry → string.

Definition showStatus (elementId message type : string) (w : world) : world :=
  if dom elementId then emit (ShowStatus elementId message type) w else w.

Definition getLocalEntries (w : world) : list entry :=
  match ls_entries w with
  | Some entries => entries
  | None => []
  end.

Definition updateLocalCount (w : world) : world :=
  if dom "local-count"
  then emit (LocalCount (length (getLocalEntries w))) w
  else w.

(** [init]: an absent item and the empty string are both falsy and
    skip the parse; [JSON.parse] is not guarded. *)
Definition init (w : world) : completion :=
  match ls_config w with
  | None => Returns (updateLocalCount w)
  | Some (Malformed raw) =>
      if decide (raw = "") then Returns (updateLocalCount w)
      else Throws "SyntaxError" w
  | Some (Parsed url) =>
      (* parsed.sheetsUrl || '' : a missing url is the empty string *)
      let w := set_sheetsUrl url w in
      let w := if dom "sheets-url" then emit (SetValue "sheets-url" url) w
               else w in
      Returns (updateLocalCount w)
  end.

(** [saveConfig]; [value] is the content of the url input. *)
Definition saveConfig (value : string) (w : world) : world :=
  if dom "sheets-url" then
    let w := set_sheetsUrl (trim value) w in
    let w := set_ls_config (Some (Parsed (sheetsUrl w))) w in
    showStatus "connection-status" "Configuration saved!" "success" w
  else w.

(** One [fetch] call: the oracle decides, the counter advances. *)
Definition fetch (w : world) : settled * world :=
  (net (fetches w), set_fetches (S (fetches w)) w).

Definition testConnection (w : world) : world :=
  if decide (sheetsUrl w = "") then
    showStatus "connection-status" "Please enter an Apps Script URL first"
      "error" w
  else
    let w := showStatus "connection-status" "Testing connection..." "" w in
    match fetch w with
    | (Fulfilled, w) =>
        showStatus "connection-status"
          "Connection appears to work! (Note: Full verification requires checking the sheet)"
          "success" w
    | (Rejected message, w) =>
        showStatus "connection-status" ("Connection failed: " +:+ message)
          "error" w
    end.

Definition saveLocal (e : entry) (w : world) : world :=
  let entries := getLocalEntries w ++ [e] in
  let w := set_ls_entries (Some entries) w in
  updateLocalCount w.

Definition sendToSheets (e : entry) (w : world) : settled * world :=
  if decide (sheetsUrl w = "") then
    (Rejected "Google Sheets URL not configured", w)
  else fetch w.

(** [findIndex] returns the first match; only that element is written. *)
Definition markAsSynced (entryId : string) (w : world) : world :=
  let entries := getLocalEntries w in
  match list_find (λ e, e_id e = entryId) entries with
  | Some (index, _) =>
      set_ls_entries (Some (alter set_synced index entries)) w
  | None => w
  end.

(** The object [save] returns; [error] is present only in the [catch]
    branch. *)
Record save_result : Type := {
  success : bool;
  synced : bool;
  error : option string
}.

Definition save (e : entry) (w : world) : save_result * world :=
  let w := saveLocal e w in
  if decide (sheetsUrl w = "") then
    ({| success := true; synced := false; error := None |}, w)
  else
    match sendToSheets e w with
    | (Fulfilled, w) =>
        ({| success := true; synced := true; error := None |},
         markAsSynced (e_id e) w)
    | (Rejected message, w) =>
        ({| success := true; synced := false; error := Some message |},
         emit (ConsoleWarn message) w)
    end.

(** The [for ... of unsynced] loop of [syncAll] with its two counters. *)
Fixpoint syncLoop (unsynced : list entry) (nsynced nfailed : nat) (w : world)
  : nat * nat * world :=
  match unsynced with
  | [] => (nsynced, nfailed, w)
  | e :: rest =>
      match sendToSheets e w with
      | (Fulfilled, w) =>
          syncLoop rest (S nsynced) nfailed (markAsSynced (e_id e) w)
      | (Rejected message, w) =>
          syncLoop rest nsynced (S nfailed) (emit (ConsoleError message) w)
      end
  end.

Definition syncAll (w : world) : world :=
  if decide (sheetsUrl w = "") then
    showStatus "sync-status" "Please configure Google Sheets URL first"
      "error" w
  else
    let entries := getLocalEntries w in
    let unsynced := filter (λ e, e_synced e = false) entries in
    if decide (length unsynced = 0%nat) then
      showStatus "sync-status" "All entries already synced!" "success" w
    else
      let w := showStatus "sync-status"
                 ("Syncing " +:+ pretty (length unsynced) +:+ " entries...")
                 "" w in
      let '(nsynced, nfailed, w) := syncLoop unsynced 0 0 w in
      if decide (nfailed = 0%nat) then
        showStatus "sync-status"
          ("Successfully synced " +:+ pretty nsynced +:+ " entries!")
          "success" w
      else
        showStatus "sync-status"
          ("Synced " +:+ pretty nsynced +:+ " entries, " +:+ pretty nfailed
           +:+ " failed")
          "error" w.


(** The label tables of [formatSocialResponse] and
    [formatCopingResponse].  (Keys inherited from [Object.prototype]
    are not values any screen can produce and are left out.) *)
Definition social_labels : gmap string string :=
  list_to_map [
    ("yes_several", "Yes, several good moments");
    ("yes_one", "Yes, at least one");
    ("not_really", "Not really, but okay");
    ("no_wished", "No, and wished I had")
  ].

Definition coping_labels : gmap string string :=
  list_to_map [
    ("yes_helped", "Yes, and it helped");
    ("yes_not_much", "Yes, but not much");
    ("no", "No");
    ("n/a", "N/A (no dysregulation)")
  ].

(** The property key a value is converted to in [map[value]]. *)
Definition property_key (value : jsval) : string :=
  match value with
  | JNull => "null"
  | JNum n => pretty n
  | JStr s => s
  end.

(** [map[value] || value || ''] *)
Definition label_or_value (map : gmap string string) (value : jsval) : jsval :=
  let label := match map !! property_key value with
               | Some l => JStr l
               | None => JNull
               end in
  if truthy label then label
  else if truthy value then value
  else JStr "".

Definition formatSocialResponse : jsval → jsval := label_or_value social_labels.
Definition formatCopingResponse : jsval → jsval := label_or_value coping_labels.

(** The quoted notes cell.  [(v || '')] must be a string for [replace]
    to exist: a non-zero number there is a [TypeError] ([None]). *)
Definition quoted_notes (v : jsval) : option string :=
  match (if truthy v then v else JStr "") with
  | JStr s => Some (String dquote (double_quotes s) +:+ String dquote "")
  | _ => None
  end.

Definition csv_headers : list string :=
  [ "Date"; "Time"; "Overall Day (1-5)"; "Academic Focus (1-5)";
    "Social Interactions"; "Dysregulation Count"; "Coping Strategy Used";
    "Notes"; "Synced" ].

(** One element of [rows]: the nine cells of an entry, each already
    converted the way [join] converts it. *)
Definition csv_row (e : entry) : option (list string) :=
  notes ← quoted_notes (get (e_responses e) "free_response");
  Some [ e_date e;
         e_timestamp e;
         join_str (get (e_responses e) "overall_day");
         join_str (get (e_responses e) "academic_focus");
         join_str (formatSocialResponse (get (e_responses e) "social_interactions"));
         join_str (get (e_responses e) "dysregulation_count");
         join_str (formatCopingResponse (get (e_responses e) "used_coping_strategy"));
         notes;
         if e_synced e then "Yes" else "No" ].

Definition newline : string := String (ascii_of_nat 10) "".

Definition csvContent (rows : list (list string)) : string :=
  join newline (join "," csv_headers :: map (join ",") rows).

Definition downloadFile (content filename mimeType : string) (w : world) : world :=
  emit (Download content filename mimeType) w.

(** [iso.split('T')[0]]: the text before the first [T]. *)
Fixpoint before_T (iso : string) : string :=
  match iso with
  | String c rest =>
      if decide (c = "T"%char) then EmptyString else String c (before_T rest)
  | EmptyString => EmptyString
  end.

(** [getDateString]; [iso] is [new Date().toISOString()]. *)
Definition getDateString (iso : string) : string := before_T iso.

Definition exportCSV (iso : string) (w : world) : completion :=
  let entries := getLocalEntries w in
  if decide (length entries = 0%nat) then
    Returns (emit (Alert "No entries to export") w)
  else
    match mapM csv_row entries with
    | None => Throws "TypeError" w
    | Some rows =>
        Returns (downloadFile (csvContent rows)
                   ("carmel-checkin-" +:+ getDateString iso +:+ ".csv")
                   "text/csv" w)
    end.

Definition exportJSON (iso : string) (w : world) : world :=
  let entries := getLocalEntries w in
  if decide (length entries = 0%nat) then
    emit (Alert "No entries to export") w
  else
    downloadFile (stringify_pretty entries)
      ("carmel-checkin-" +:+ getDateString iso +:+ ".json")
      "application/json" w.

(** [clearLocal]; [answer] is what the user replies to [confirm]. *)
Definition clearLocal (answer : bool) (w : world) : world :=
  let w := emit (Confirm "Are you sure you want to delete all local data? This cannot be undone.") w in
  if answer then
    let w := set_ls_entries None w in
    let w := updateLocalCount w in
    showStatus "sync-status" "Local data cleared" "success" w
  else w.

End gateway.
End storage.

(** ** The flow controller ([js/app.js]) *)

Module app.

Record flow_entry : Type := {
  next : option string;
  prev : option string
}.

(** What [submit] reads from the environment. *)
Record submit_inputs : Type := {
  endTime : Z;            (* Date.now() at the top of submit *)
  idTime : Z;             (* Date.now() inside generateId *)
  idRandom : string;      (* Math.random().toString(36).substr(2, 9) *)
  dateIso : string;       (* new Date().toISOString() inside getDateString *)
  timestampIso : string;  (* new Date().toISOString() for the timestamp *)
  deviceType : string     (* getDeviceType(): tablet, mobile or desktop *)
}.

Section controller.

Variable dom : string → bool.
Variable net : nat → settled.

(** The screen flow table. A screen without a [prev] key and one whose
    [prev] is [null] both read as a falsy value. *)
Definition flow : gmap string flow_entry :=
  list_to_map [
    ("screen-welcome", {| next := Some "screen-q1"; prev := None |});
    ("screen-q1", {| next := Some "screen-q2"; prev := Some "screen-welcome" |});
    ("screen-q2", {| next := Some "screen-q3"; prev := Some "screen-q1" |});
    ("screen-q3", {| next := Some "screen-q4"; prev := Some "screen-q2" |});
    ("screen-q4", {| next := Some "screen-q4b"; prev := Some "screen-q3" |});
    ("screen-q4b", {| next := Some "screen-q5"; prev := Some "screen-q4" |});
    ("screen-q5", {| next := Some "screen-done"; prev := Some "screen-q4b" |});
    ("screen-done", {| next := None; prev := None |})
  ].

Definition saveProgress (w : world) : world :=
  set_ls_progress
    (Some (Parsed {| p_currentScreen := currentScreen w;
                     p_startTime := startTime w;
                     p_responses := responses w |})) w.

Definition clearProgress (w : world) : world := set_ls_progress None w.

(** [showScreen]: nothing happens to the state unless the target
    element exists.  [restoreSelections] only toggles CSS classes and
    the textarea value. *)
Definition showScreen (screenId : string) (w : world) : world :=
  if dom screenId then
    let w := set_currentScreen screenId w in
    saveProgress w
  else w.

Definition start (now : Z) (w : world) : world :=
  let w := set_startTime (Some now) w in
  showScreen "screen-q1" w.

(** [responses.dysregulation_count === 0] *)
Definition dysregulation_is_zero (w : world) : bool :=
  bool_decide (responses w !! "dysregulation_count" = Some (JNum 0)).

Definition goBack (w : world) : world :=
  let current := currentScreen w in
  let prevScreen := flow !! current ≫= prev in
  let prevScreen :=
    if bool_decide (current = "screen-q5") && dysregulation_is_zero w
    then Some "screen-q4" else prevScreen in
  match prevScreen with
  | Some screenId => showScreen screenId w
  | None => w
  end.

Definition goNext (w : world) : world :=
  let current := currentScreen w in
  let nextScreen := flow !! current ≫= next in
  let '(nextScreen, w) :=
    if bool_decide (current = "screen-q4") && dysregulation_is_zero w
    then (Some "screen-q5",
          set_responses (<["used_coping_strategy" := JStr "n/a"]> (responses w)) w)
    else (nextScreen, w) in
  match nextScreen with
  | Some screenId => showScreen screenId w
  | None => w
  end.

(** The common body of [selectRating], [selectChoice] and
    [selectNumber]: store the value, mark the button on the current
    screen (a [TypeError] if that element is missing), arm the
    auto-advance timer. *)
Definition select (field : string) (value : jsval) (w : world) : completion :=
  let w := set_responses (<[field := value]> (responses w)) w in
  if dom (currentScreen w) then Returns (set_timers (S (timers w)) w)
  else Throws "TypeError" w.

Definition selectRating (field : string) (value : Z) : world → completion :=
  select field (JNum value).
Definition selectChoice (field : string) (value : string) : world → completion :=
  select field (JStr value).
Definition selectNumber (field : string) (value : Z) : world → completion :=
  select field (JNum value).

(** A pending auto-advance callback runs. *)
Definition timer_fires (w : world) : world :=
  match timers w with
  | O => w
  | S n => goNext (set_timers n w)
  end.

Definition generateId (now : Z) (random : string) : string :=
  "entry_" +:+ pretty now +:+ "_" +:+ random.

Definition getDateString (iso : string) : string := storage.before_T iso.

(** [Math.round((endTime - startTime) / 1000)]: [null] counts as 0 and
    halves round towards plus infinity. *)
Definition completionTime (endTime : Z) (startTime : option Z) : Z :=
  (endTime - default 0 startTime + 500) `div` 1000.

Definition new_entry (i : submit_inputs) (w : world) : entry :=
  {| e_id := generateId (idTime i) (idRandom i);
     e_date := getDateString (dateIso i);
     e_timestamp := timestampIso i;
     e_responses := responses w;
     e_metadata := {| completion_time_seconds :=
                        completionTime (endTime i) (startTime w);
                      device := deviceType i |};
     e_synced := false |}.

(** [submit].  [showDoneSummary] only rewrites the summary markup. *)
Definition submit (i : submit_inputs) (w : world) : world :=
  let e := new_entry i w in
  let '(result, w) := storage.save dom net e w in
  let w := showScreen "screen-done" w in
  clearProgress w.

(** [submitFreeResponse]; [text] is the content of the textarea. *)
Definition submitFreeResponse (text : string) (i : submit_inputs) (w : world)
  : completion :=
  if dom "free-response" then
    let w := set_responses (<["free_response" := JStr (trim text)]> (responses w)) w in
    Returns (submit i w)
  else Throws "TypeError" w.

(** The [keydown] listener installed by [init]. *)
Definition keydown (key : string) (text : string) (i : submit_inputs) (w : world)
  : completion :=
  if bool_decide (key = "Enter") && bool_decide (currentScreen w = "screen-q5")
  then submitFreeResponse text i w
  else Returns w.

Definition reset (w : world) : world :=
  let w := set_responses empty_responses w in
  let w := set_startTime None w in
  showScreen "screen-welcome" w.

(** [this.state = { ...this.state, ...progress }] *)
Definition restore (p : progress) (w : world) : world :=
  set_responses (p_responses p)
    (set_startTime (p_startTime p)
      (set_currentScreen (p_currentScreen p) w)).

(** [progress.startTime && (Date.now() - progress.startTime) < 3600000] *)
Definition started_within_last_hour (now : Z) (startTime : option Z) : bool :=
  match startTime with
  | Some t => bool_decide (t ≠ 0) && bool_decide (now - t < 3600000)
  | None => false
  end.

(** [loadProgress]; [now] is [Date.now()], [answer] the reply to the
    [confirm] dialog if it is shown. *)
Definition loadProgress (now : Z) (answer : bool) (w : world) : world :=
  match ls_progress w with
  | None => w
  | Some (Malformed raw) =>
      if decide (raw = "") then w else clearProgress w
  | Some (Parsed p) =>
      if started_within_last_hour now (p_startTime p) then
        let w := restore p w in
        if bool_decide (p_currentScreen p ≠ "" ∧
                        p_currentScreen p ≠ "screen-welcome")
        then
          let w := emit (Confirm "You have an unfinished check-in. Would you like to continue?") w in
          if answer then showScreen (p_currentScreen p) w
          else clearProgress w
        else w
      else clearProgress w
  end.

Definition init (now : Z) (answer : bool) (w : world) : world :=
  loadProgress now answer w.

End controller.
End app.

(** ** Runs of the controller *)

(** The two navigation operations of the flow. *)
Inductive nav : Type := Next | Back.

(** Everything the page can make the controller do between two
    submissions.  A selection stores the answer at once; the [goNext] it
    schedules is the separate, later action [TimerFires]. *)
Inductive action : Type :=
  | Start (now : Z)
  | GoNext
  | GoBack
  | SelectRating (field : string) (value : Z)
  | SelectChoice (field value : string)
  | SelectNumber (field : string) (value : Z)
  | TimerFires
  | Reset.

Section runs.

Variable dom : string → bool.

Definition navigate (n : nav) (w : world) : world :=
  match n with
  | Next => app.goNext dom w
  | Back => app.goBack dom w
  end.

(** The operations of [ops] in order, earliest first. *)
Definition run_nav (ops : list nav) (w : world) : world :=
  foldl (λ w n, navigate n w) w ops.

Definition step (a : action) (w : world) : world :=
  match a with
  | Start now => app.start dom now w
  | GoNext => app.goNext dom w
  | GoBack => app.goBack dom w
  | SelectRating field value => world_of (app.selectRating dom field value w)
  | SelectChoice field value => world_of (app.selectChoice dom field value w)
  | SelectNumber field value => world_of (app.selectNumber dom field value w)
  | TimerFires => app.timer_fires dom w
  | Reset => app.reset dom w
  end.

Definition run (actions : list action) (w : world) : world :=
  foldl (λ w a, step a w) w actions.

(** The states the controller can be in, from a fresh page load. *)
Definition reachable (w : world) : Prop :=
  ∃ actions, run actions initial_world = w.

End runs.

(** The field an action writes by answering a question, if any. *)
Definition answered_field (a : action) : option string :=
  match a with
  | SelectRating field _ | SelectChoice field _ | SelectNumber field _ => Some field
  | _ => None
  end.

(** "[used_coping_strategy] is [n/a] whenever [dysregulation_count] is 0". *)
Definition coping_forced (w : world) : Prop :=
  responses w !! "dysregulation_count" = Some (JNum 0) →
  responses w !! "used_coping_strategy" = Some (JStr "n/a").

(** ** The flow as the specification words it *)

Module spec.

Inductive screen : Type :=
  | welcome | q1 | q2 | q3 | q4 | q4b | q5 | done.

Definition screen_id (s : screen) : string :=
  match s with
  | welcome => "screen-welcome"
  | q1 => "screen-q1"
  | q2 => "screen-q2"
  | q3 => "screen-q3"
  | q4 => "screen-q4"
  | q4b => "screen-q4b"
  | q5 => "screen-q5"
  | done => "screen-done"
  end.

(** The static chain welcome, q1, q2, q3, q4, q4b, q5, done. *)
Definition chain_next (s : screen) : option screen :=
  match s with
  | welcome => Some q1
  | q1 => Some q2
  | q2 => Some q3
  | q3 => Some q4
  | q4 => Some q4b
  | q4b => Some q5
  | q5 => Some done
  | done => None
  end.

(** Its symmetric [prev] pointers: [x] is the [prev] of [chain_next x]. *)
Definition symmetric_prev (s : screen) : option screen :=
  match s with
  | welcome => None
  | q1 => Some welcome
  | q2 => Some q1
  | q3 => Some q2
  | q4 => Some q3
  | q4b => Some q4
  | q5 => Some q4b
  | done => Some q5
  end.

(** The [prev] pointers of the table as it is: the terminal screen has
    none. *)
Definition table_prev (s : screen) : option screen :=
  match s with
  | done => None
  | _ => symmetric_prev s
  end.

(** One operation on the table [prev_of], with the skip rule in both
    directions when [zero] (the dysregulation count is 0); a missing
    pointer leaves the screen where it is. *)
Definition move (prev_of : screen → option screen) (zero : bool)
    (n : nav) (s : screen) : screen :=
  match n, s with
  | Next, q4 => if zero then q5 else q4b
  | Back, q5 => if zero then q4 else q4b
  | Next, _ => default s (chain_next s)
  | Back, _ => default s (prev_of s)
  end.

Definition follow (prev_of : screen → option screen) (zero : bool)
    (ops : list nav) (s : screen) : screen :=
  foldl (λ s n, move prev_of zero n s) s ops.

End spec.

(** ** Mutations of the Local Entry Store *)

(** What [markAsSynced] does to the array it read: the first entry that
    carries [entryId], if there is one, gets its flag raised. *)
Definition mark_first (entryId : string) (l : list entry) : list entry :=
  match list_find (λ e, e_id e = entryId) l with
  | Some (index, _) => alter set_synced index l
  | None => l
  end.

(** One sync-flag update, keyed by identifier lookup. *)
Inductive sync_flip : list entry → list entry → Prop :=
  | sync_flip_at (l : list entry) (entryId : string) (index : nat) (e : entry) :
      list_find (λ x, e_id x = entryId) l = Some (index, e) →
      sync_flip l (alter set_synced index l).

(** [l] with the flag raised on every entry whose identifier is in [ids]. *)
Definition flag_all (ids : list string) (l : list entry) : list entry :=
  (λ e, if decide (e_id e ∈ ids) then set_synced e else e) <$> l.

(** The entries of [pending] whose request goes through, when they are
    sent one after the other and the first request is number [k]. *)
Fixpoint delivered (net : nat → settled) (k : nat) (pending : list entry)
  : list entry :=
  match pending with
  | [] => []
  | e :: rest =>
      match net k with
      | Fulfilled => e :: delivered net (S k) rest
      | Rejected _ => delivered net (S k) rest
      end
  end.

(** The status line [syncAll] ends with after a loop that counted
    [nsynced] successes and [nfailed] failures. *)
Definition sync_report (nsynced nfailed : nat) : effect :=
  if decide (nfailed = 0%nat) then
    ShowStatus "sync-status"
      ("Successfully synced " +:+ pretty nsynced +:+ " entries!") "success"
  else
    ShowStatus "sync-status"
      ("Synced " +:+ pretty nsynced +:+ " entries, " +:+ pretty nfailed
       +:+ " failed") "error".

(** [e'] is [e] with at most the sync flag raised. *)
Definition same_but_synced (e e' : entry) : Prop :=
  e' = e ∨ e' = set_synced e.

(** No entry of [before] is removed or edited in [after], sync flag
    apart. *)
Definition kept_in_place (before after : list entry) : Prop :=
  ∀ (i : nat) (e : entry), before !! i = Some e →
    ∃ e', after !! i = Some e' ∧ same_but_synced e e'.

(** The operations of the gateway object. *)
Inductive gateway_op : Type :=
  | OpInit
  | OpSaveConfig (value : string)
  | OpTestConnection
  | OpSaveLocal (e : entry)
  | OpSave (e : entry)
  | OpMarkAsSynced (entryId : string)
  | OpSyncAll
  | OpExportCSV (iso : string)
  | OpExportJSON (iso : string)
  | OpClearLocal (answer : bool)
  | OpUpdateLocalCount
  | OpShowStatus (elementId message type : string).

Section gateway_runs.

Variable dom : string → bool.
Variable net : nat → settled.
Variable stringify_pretty : list entry → string.

Definition run_op (op : gateway_op) (w : world) : world :=
  match op with
  | OpInit => world_of (storage.init dom w)
  | OpSaveConfig value => storage.saveConfig dom value w
  | OpTestConnection => storage.testConnection dom net w
  | OpSaveLocal e => storage.saveLocal dom e w
  | OpSave e => (storage.save dom net e w).2
  | OpMarkAsSynced entryId => storage.markAsSynced entryId w
  | OpSyncAll => storage.syncAll dom net w
  | OpExportCSV iso => world_of (storage.exportCSV iso w)
  | OpExportJSON iso => storage.exportJSON stringify_pretty iso w
  | OpClearLocal answer => storage.clearLocal dom answer w
  | OpUpdateLocalCount => storage.updateLocalCount dom w
  | OpShowStatus elementId message type =>
      storage.showStatus dom elementId message type w
  end.

End gateway_runs.

(** What each operation may do to the store: append one entry at the
    end, raise sync flags by identifier lookup, clear everything, or
    nothing. *)
Definition store_effect (op : gateway_op) (before after : list entry) : Prop :=
  match op with
  | OpSaveLocal e => after = before ++ [e]
  | OpMarkAsSynced entryId => after = before ∨ sync_flip before after
  | OpSave e => after = before ++ [e] ∨ sync_flip (before ++ [e]) after
  | OpSyncAll => rtc sync_flip before after
  | OpClearLocal answer => after = if answer then [] else before
  | _ => after = before
  end.

(** The number of stored entries that carry the identifier [entryId]. *)
Definition occurrences (entryId : string) (l : list entry) : nat :=
  length (filter (λ x, e_id x = entryId) l).

(** The entries [syncAll] iterates over. *)
Definition unsynced (l : list entry) : list entry :=
  filter (λ e, e_synced e = false) l.

(** ** Sample environments and inputs *)

(** A page in which every element the scripts look up exists. *)
Definition every_element : string → bool := λ _, true.

(** A network on which every request goes through, and one on which
    none does. *)
Definition always_fulfilled : nat → settled := λ _, Fulfilled.
Definition always_rejected : nat → settled := λ _, Rejected "Failed to fetch".

Definition sample_inputs : app.submit_inputs :=
  {| app.endTime := 1762164061499;
     app.idTime := 1762164061500;
     app.idRandom := "k3v9x0q2m";
     app.dateIso := "2025-11-03T10:01:01.500Z";
     app.timestampIso := "2025-11-03T10:01:01.501Z";
     app.deviceType := "desktop" |}.

(** A session in which the user answers 0 on q4 and presses Back before
    the auto-advance timer runs; the stale timer then advances from q3. *)
Definition back_before_auto_advance : list action :=
  [ Start 1762164000000;
    SelectRating "overall_day" 4; TimerFires;
    SelectRating "academic_focus" 3; TimerFires;
    SelectChoice "social_interactions" "yes_one"; TimerFires;
    SelectNumber "dysregulation_count" 0; GoBack; TimerFires ].

(** A state on q4 in the middle of a session, no answer given to q4 yet. *)
Definition at_q4 : world :=
  run every_element
    [ Start 1762164000000;
      SelectRating "overall_day" 4; TimerFires;
      SelectRating "academic_focus" 3; TimerFires;
      SelectChoice "social_interactions" "yes_one"; TimerFires ]
    initial_world.

(** The entry a submission at [sample_inputs] builds on a fresh page. *)
Definition sample_entry : entry := app.new_entry sample_inputs initial_world.

(** A second submission, a minute later. *)
Definition later_inputs : app.submit_inputs :=
  {| app.endTime := 1762164121499;
     app.idTime := 1762164121500;
     app.idRandom := "p0d4w7zz1";
     app.dateIso := "2025-11-03T10:02:01.500Z";
     app.timestampIso := "2025-11-03T10:02:01.501Z";
     app.deviceType := "mobile" |}.

Definition later_entry : entry := app.new_entry later_inputs initial_world.

(** A configured gateway holding two entries, neither synced yet. *)
Definition two_pending : world :=
  storage.saveLocal every_element later_entry
    (storage.saveLocal every_element sample_entry initial_world).

(** A submission that reads the same clock value and draws the same
    random suffix as [sample_inputs] did. *)
Definition colliding_inputs : app.submit_inputs :=
  {| app.endTime := 1762164061500;
     app.idTime := 1762164061500;
     app.idRandom := "k3v9x0q2m";
     app.dateIso := "2025-11-03T10:01:01.500Z";
     app.timestampIso := "2025-11-03T10:01:01.502Z";
     app.deviceType := "desktop" |}.

(** A session that has just left the welcome screen. *)
Definition at_q1 : world := app.start every_element 1762164000000 initial_world.

(** [occurs c s]: the character [c] appears in [s]. *)
Fixpoint occurs (c : ascii) (s : string) : bool :=
  match s with
  | String c' rest => bool_decide (c' = c) || occurs c rest
  | EmptyString => false
  end.

(** ** The CSV export and the resume offer, as observed *)

(** The header line of the export as the specification quotes it, and as
    [csv_headers] joins to. *)
Definition claimed_header : string :=
  "Date,Timestamp,Overall Day (1-5),Academic Focus (1-5),Social Interactions,Dysregulation Count,Coping Strategy Used,Notes,Synced".

Definition header_line : string :=
  "Date,Time,Overall Day (1-5),Academic Focus (1-5),Social Interactions,Dysregulation Count,Coping Strategy Used,Notes,Synced".

(** The data line of an entry whose note is the string [notes]. *)
Definition data_line (e : entry) (notes : string) : string :=
  e_date e +:+ "," +:+
  e_timestamp e +:+ "," +:+
  join_str (get (e_responses e) "overall_day") +:+ "," +:+
  join_str (get (e_responses e) "academic_focus") +:+ "," +:+
  join_str (storage.formatSocialResponse
              (get (e_responses e) "social_interactions")) +:+ "," +:+
  join_str (get (e_responses e) "dysregulation_count") +:+ "," +:+
  join_str (storage.formatCopingResponse
              (get (e_responses e) "used_coping_strategy")) +:+ "," +:+
  (String dquote (double_quotes notes) +:+ String dquote "") +:+ "," +:+
  (if e_synced e then "Yes" else "No").

(** A completed entry whose note contains quotation marks. *)
Definition answered_entry : entry :=
  {| e_id := "entry_1762164061500_k3v9x0q2m";
     e_date := "2025-11-03";
     e_timestamp := "2025-11-03T10:01:01.501Z";
     e_responses :=
       <["overall_day" := JNum 4]>
       (<["academic_focus" := JNum 3]>
       (<["social_interactions" := JStr "yes_one"]>
       (<["dysregulation_count" := JNum 2]>
       (<["used_coping_strategy" := JStr "yes_helped"]>
       (<["free_response" :=
            JStr ("said " +:+ String dquote "hi" +:+ String dquote ", left")]>
        ∅)))));
     e_metadata := {| completion_time_seconds := 61; device := "desktop" |};
     e_synced := false |}.

Definition single_store : world :=
  set_ls_entries (Some [answered_entry]) initial_world.

(** [loadProgress] shows the resume dialog. *)
Definition offers_resume (dom : string → bool) (now : Z) (answer : bool)
    (w : world) : Prop :=
  log (app.loadProgress dom now answer w)
  = Confirm "You have an unfinished check-in. Would you like to continue?"
    :: log w.

(** A session saved on q3 and started at [1762164000000]. *)
Definition hour_old_session : world :=
  set_ls_progress
    (Some (Parsed {| p_currentScreen := "screen-q3";
                     p_startTime := Some 1762164000000;
                     p_responses := <["overall_day" := JNum 4]> empty_responses |}))
    initial_world.

(** A page load exactly one hour (3600000 ms) after that start. *)
Definition load_time : Z := 1762167600000.

(** Stored configuration text that is not JSON. *)
Definition malformed_config : world :=
  set_ls_config (Some (Malformed "{sheetsUrl:")) initial_world.

Definition malformed_session : world :=
  set_ls_progress (Some (Malformed "{currentScreen:")) initial_world.

(** ** A page reload *)

(** The page is loaded again: the two scripts run afresh, so [app.state]
    and [storage.config] are the object literals of the sources again
    and no timer is pending; [localStorage] is what the last page left. *)
Definition reload (w : world) : world :=
  {| currentScreen := currentScreen initial_world;
     startTime := startTime initial_world;
     responses := responses initial_world;
     sheetsUrl := sheetsUrl initial_world;
     ls_entries := ls_entries w;
     ls_progress := ls_progress w;
     ls_config := ls_config w;
     timers := 0%nat; fetches := fetches w; log := log w |}.

(** ** The device class ([getDeviceType] of [js/app.js]) *)

(** An ASCII capital letter as its small letter; any other character
    unchanged.  This is the case folding of a regular expression with
    the [i] flag on a pattern of ASCII letters. *)
Definition lower (c : ascii) : ascii :=
  let n := nat_of_ascii c in
  if (65 <=? n)%nat && (n <=? 90)%nat then ascii_of_nat (n + 32) else c.

Fixpoint lower_string (s : string) : string :=
  match s with
  | String c rest => String (lower c) (lower_string rest)
  | EmptyString => EmptyString
  end.

(** [s] starts with [pattern], letter case apart. *)
Fixpoint starts_with_ci (pattern s : string) : bool :=
  match pattern, s with
  | EmptyString, _ => true
  | String p pattern', String c s' =>
      bool_decide (lower c = p) && starts_with_ci pattern' s'
  | String _ _, EmptyString => false
  end.

(** [/pattern/i.test(s)] for a pattern that is a word of small letters
    and spaces. *)
Fixpoint includes_ci (pattern s : string) : bool :=
  starts_with_ci pattern s ||
  match s with
  | String _ s' => includes_ci pattern s'
  | EmptyString => false
  end.

Definition tablet_words : list string :=
  ["tablet"; "ipad"; "playbook"; "silk"].

Definition mobile_words : list string :=
  ["mobile"; "iphone"; "ipod"; "android"; "blackberry"; "opera mini"; "iemobile"].

(** [getDeviceType]; [ua] is [navigator.userAgent]. *)
Definition getDeviceType (ua : string) : string :=
  if existsb (λ word, includes_ci word ua) tablet_words then "tablet"
  else if existsb (λ word, includes_ci word ua) mobile_words then "mobile"
  else "desktop".

(** ** Rows of the CSV export *)

(** The note of an entry when it is a string. *)
Definition note_of (e : entry) : string :=
  match get (e_responses e) "free_response" with
  | JStr s => s
  | _ => ""
  end.

(** ** The spreadsheet backend ([google-apps-script.js]) *)

Module gas.

Definition SHEET_NAME : string := "Check-In Data".
Definition FILE_NAME : string := "Carmel Daily Check-In Data".

(** The metadata object of a posted body; a missing key is [null]. *)
Record posted_metadata : Type := {
  m_completion_time_seconds : jsval;
  m_device : jsval
}.

(** The object a request body parses to; a missing key is [null], a
    missing object [None]. *)
Record posted : Type := {
  d_test : jsval;
  d_date : jsval;
  d_timestamp : jsval;
  d_responses : option answers;
  d_id : jsval;
  d_metadata : option posted_metadata
}.

(** What [createResponse] serialises. *)
Record response : Type := {
  r_success : bool;
  r_message : option string;
  r_error : option string;
  r_entryId : option jsval
}.

(** The spreadsheet of the script owner, if the file exists: its sheets
    by name, each a list of rows of cells. *)
Abbreviation spreadsheet := (gmap string (list (list jsval))).

Definition social_labels : gmap string string :=
  list_to_map [
    ("yes_several", "Yes, several good moments");
    ("yes_one", "Yes, at least one");
    ("not_really", "Not really, but okay");
    ("no_wished", "No, and wished I had")
  ].

Definition coping_labels : gmap string string :=
  list_to_map [
    ("yes_helped", "Yes, and it helped");
    ("yes_not_much", "Yes, but not much");
    ("no", "No");
    ("n/a", "N/A")
  ].

Definition formatSocialResponse : jsval → jsval :=
  storage.label_or_value social_labels.
Definition formatCopingResponse : jsval → jsval :=
  storage.label_or_value coping_labels.

(** [v || ''] *)
Definition or_empty (v : jsval) : jsval :=
  if truthy v then v else JStr "".

Definition headers : list jsval :=
  [ JStr "Date"; JStr "Timestamp"; JStr "Overall Day (1-5)";
    JStr "Academic Focus (1-5)"; JStr "Social Interactions";
    JStr "Dysregulation Count"; JStr "Coping Strategy Used"; JStr "Notes";
    JStr "Entry ID"; JStr "Completion Time (sec)"; JStr "Device" ].

(** [sheet.getRange(1, 1, 1, headers.length).setValues([headers])]: the
    first row is overwritten, or created on an empty sheet. *)
Definition setupSheetHeaders (rows : list (list jsval)) : list (list jsval) :=
  headers :: tail rows.

(** The cells [setupSummarySheet] fills, rows 1 to 9, columns A and B. *)
Definition summary_rows : list (list jsval) :=
  [ [JStr "Weekly Summary"];
    [];
    [JStr "This sheet will auto-calculate weekly averages from the Check-In Data sheet."];
    [JStr "Add conditional formatting and charts as desired."];
    [];
    [JStr "Average Overall Day (last 7 entries):";
     JStr ("=IFERROR(AVERAGE(INDIRECT(" +:+ String dquote "'Check-In Data'!C2:C"
           +:+ String dquote " & COUNTA('Check-In Data'!C:C))), "
           +:+ String dquote "No data" +:+ String dquote ")")];
    [JStr "Average Focus (last 7 entries):";
     JStr ("=IFERROR(AVERAGE(INDIRECT(" +:+ String dquote "'Check-In Data'!D2:D"
           +:+ String dquote " & COUNTA('Check-In Data'!D:D))), "
           +:+ String dquote "No data" +:+ String dquote ")")];
    [JStr "Total Dysregulation Events:";
     JStr "=IFERROR(SUM('Check-In Data'!F:F), 0)"];
    [JStr "Total Check-Ins:";
     JStr "=MAX(COUNTA('Check-In Data'!A:A)-1, 0)"] ].

(** [SpreadsheetApp.create] followed by [setupNewSpreadsheet]: the one
    empty sheet of the new file is renamed and given the header row, and
    the summary sheet is added. *)
Definition setupNewSpreadsheet : spreadsheet :=
  <["Weekly Summary" := summary_rows]>
    (<[SHEET_NAME := setupSheetHeaders []]> ∅).

(** [getOrCreateSheet] with the empty [SPREADSHEET_ID] of the source:
    the file is looked up by name and created when missing, then the
    data sheet is looked up and created when missing.  Returns the file
    and the rows of the data sheet. *)
Definition getOrCreateSheet (drive : option spreadsheet)
  : spreadsheet * list (list jsval) :=
  let file := match drive with
              | Some file => file
              | None => setupNewSpreadsheet
              end in
  match file !! SHEET_NAME with
  | Some rows => (file, rows)
  | None => (<[SHEET_NAME := setupSheetHeaders []]> file, setupSheetHeaders [])
  end.

(** The row [saveCheckIn] builds; [isoDate] and [isoTime] are what the
    two [new Date().toISOString()] give if they are evaluated. *)
Definition check_in_row (isoDate isoTime : string) (data : posted) : list jsval :=
  let responses := default ∅ (d_responses data) in
  [ if truthy (d_date data) then d_date data
    else JStr (storage.before_T isoDate);
    if truthy (d_timestamp data) then d_timestamp data else JStr isoTime;
    or_empty (get responses "overall_day");
    or_empty (get responses "academic_focus");
    formatSocialResponse (get responses "social_interactions");
    match responses !! "dysregulation_count" with
    | Some count => count
    | None => JStr ""
    end;
    formatCopingResponse (get responses "used_coping_strategy");
    or_empty (get responses "free_response");
    or_empty (d_id data);
    or_empty (match d_metadata data with
              | Some m => m_completion_time_seconds m
              | None => JNull
              end);
    or_empty (match d_metadata data with
              | Some m => m_device m
              | None => JNull
              end) ].

Definition saveCheckIn (isoDate isoTime : string) (data : posted)
    (drive : option spreadsheet) : response * option spreadsheet :=
  let '(file, rows) := getOrCreateSheet drive in
  let file := <[SHEET_NAME := rows ++ [check_in_row isoDate isoTime data]]> file in
  ({| r_success := true;
      r_message := Some "Check-in saved successfully";
      r_error := None;
      r_entryId := Some (d_id data) |},
   Some file).

Section web_app.

(** The message of the [SyntaxError] that [JSON.parse] raises on a text. *)
Variable syntax_error_message : string → string.

(** [doPost]; [contents] is [e.postData.contents]. *)
Definition doPost (isoDate isoTime : string) (contents : blob posted)
    (drive : option spreadsheet) : response * option spreadsheet :=
  match contents with
  | Malformed raw =>
      ({| r_success := false; r_message := None;
          r_error := Some (syntax_error_message raw); r_entryId := None |},
       drive)
  | Parsed data =>
      if truthy (d_test data) then
        ({| r_success := true; r_message := Some "Connection successful!";
            r_error := None; r_entryId := None |},
         drive)
      else saveCheckIn isoDate isoTime data drive
  end.

(** The requests of [posts], in order, each with its two clock readings;
    the drive after the last one. *)
Definition serve (posts : list (string * string * blob posted))
    (drive : option spreadsheet) : option spreadsheet :=
  foldl (λ drive post, (doPost post.1.1 post.1.2 post.2 drive).2) drive posts.

End web_app.

(** The rows a list of requests asks to append: one for each body that
    parses and is not a test ping, in order of arrival. *)
Definition check_in_rows (posts : list (string * string * blob posted))
  : list (list jsval) :=
  omap (λ post,
          match post.2 with
          | Parsed data =>
              if truthy (d_test data) then None
              else Some (check_in_row post.1.1 post.1.2 data)
          | Malformed _ => None
          end) posts.

(** The body the client sends for an entry: [JSON.stringify(entry)], as
    the server parses it. *)
Definition body_of (e : entry) : posted :=
  {| d_test := JNull;
     d_date := JStr (e_date e);
     d_timestamp := JStr (e_timestamp e);
     d_responses := Some (e_responses e);
     d_id := JStr (e_id e);
     d_metadata :=
       Some {| m_completion_time_seconds :=
                 JNum (completion_time_seconds (e_metadata e));
               m_device := JStr (device (e_metadata e)) |} |}.

(** The data sheet of a drive, if the file and the sheet exist. *)
Definition data_sheet (drive : option spreadsheet) : option (list (list jsval)) :=
  drive ≫= (λ file, file !! SHEET_NAME).

(** The data sheet starts with the header row and every row has as many
    cells as the header. *)
Definition well_formed (drive : option spreadsheet) : Prop :=
  ∀ rows, data_sheet drive = Some rows →
    head rows = Some headers ∧ Forall (λ r, length r = 11%nat) rows.

End gas.

(** ** What navigation leaves alone *)

(** [w'] differs from [w] in the current screen, the saved session and
    the answer [used_coping_strategy] at most. *)
Definition same_but_flow (w w' : world) : Prop :=
  startTime w' = startTime w ∧
  sheetsUrl w' = sheetsUrl w ∧
  ls_entries w' = ls_entries w ∧
  ls_config w' = ls_config w ∧
  timers w' = timers w ∧
  fetches w' = fetches w ∧
  log w' = log w ∧
  ∀ field, field ≠ "used_coping_strategy" →
    responses w' !! field = responses w !! field.

(** The saved session is the state of the controller. *)
Definition progress_is_current (w : world) : Prop :=
  ls_progress w
  = Some (Parsed {| p_currentScreen := currentScreen w;
                    p_startTime := startTime w;
                    p_responses := responses w |}).

(** ** Entries compared field by field *)

(** [e'] has every field of [e] but, possibly, the sync flag. *)
Definition same_apart_from_sync (e e' : entry) : Prop :=
  e_id e' = e_id e ∧ e_date e' = e_date e ∧ e_timestamp e' = e_timestamp e ∧
  e_responses e' = e_responses e ∧ e_metadata e' = e_metadata e.

(** The store two submissions leave that read the same clock value and
    draw the same random suffix, with the network down: two entries
    under one identifier, neither synced. *)
Definition collided_store : world :=
  app.submit every_element always_rejected colliding_inputs
    (app.submit every_element always_rejected sample_inputs initial_world).

(** ** submit around its await *)

(** [submit] is an async function: it runs up to [await storage.save],
    and [save] in turn up to [await sendToSheets], whose [fetch] is then
    on its way.  Until that request settles other listeners can run.
    A request on its way: the entry [submit] built and the number of
    the [fetch] call that carries it. *)
Record in_flight : Type := {
  sent : entry;
  request : nat
}.

(** [submit] up to the point where it yields to the event loop.  With no
    endpoint, [save] returns without a request and the rest of [submit]
    runs in the microtask that follows, before any other event. *)
Definition submit_begins (dom : string → bool) (i : app.submit_inputs)
    (w : world) : world * option in_flight :=
  let e := app.new_entry i w in
  let w := storage.saveLocal dom e w in
  if decide (sheetsUrl w = "") then
    (app.clearProgress (app.showScreen dom "screen-done" w), None)
  else
    (set_fetches (S (fetches w)) w, Some {| sent := e; request := fetches w |}).

(** The rest of [save] and of [submit], run when the request settles, on
    the state and store of that moment. *)
Definition submit_settles (dom : string → bool) (net : nat → settled)
    (p : in_flight) (w : world) : world :=
  let w := match net (request p) with
           | Fulfilled => storage.markAsSynced (e_id (sent p)) w
           | Rejected message => emit (ConsoleWarn message) w
           end in
  app.clearProgress (app.showScreen dom "screen-done" w).

(** The [keydown] listener up to the point where [submit] yields. *)
Definition keydown_begins (dom : string → bool) (key text : string)
    (i : app.submit_inputs) (w : world) : completion * option in_flight :=
  if bool_decide (key = "Enter") && bool_decide (currentScreen w = "screen-q5")
  then
    if dom "free-response" then
      let w := set_responses
                 (<["free_response" := JStr (trim text)]> (responses w)) w in
      let '(w, p) := submit_begins dom i w in
      (Returns w, p)
    else (Throws "TypeError" w, None)
  else (Returns w, None).

(** A begun submission runs to its end with nothing in between. *)
Definition resumes (dom : string → bool) (net : nat → settled)
    (s : world * option in_flight) : world :=
  match s.2 with
  | Some p => submit_settles dom net p s.1
  | None => s.1
  end.

(** ** Every operation of the controller *)

(** The actions of the page, and with them the other methods of [app]
    that write the state or the saved session: [showScreen],
    [saveProgress] and [clearProgress] called on their own, the
    free-response submission, [submit] and the Enter key (each run to
    its end, and in the two halves around the await: the listener up to
    the point where [submit] yields, and the rest once the request has
    settled), [loadProgress] (resume-on-load, run by [init]) and a page
    load as a whole (the scripts start afresh and [init] runs). *)
Inductive operation : Type :=
  | Act (a : action)
  | ShowScreen (screenId : string)
  | SaveProgress
  | ClearProgress
  | SubmitFreeResponse (text : string) (i : app.submit_inputs)
  | Submit (i : app.submit_inputs)
  | KeyDown (key text : string) (i : app.submit_inputs)
  | KeyDownBegins (key text : string) (i : app.submit_inputs)
  | SubmitSettles (p : in_flight)
  | LoadProgress (now : Z) (answer : bool)
  | PageLoad (now : Z) (answer : bool).

Definition perform (dom : string → bool) (net : nat → settled)
    (op : operation) (w : world) : world :=
  match op with
  | Act a => step dom a w
  | ShowScreen screenId => app.showScreen dom screenId w
  | SaveProgress => app.saveProgress w
  | ClearProgress => app.clearProgress w
  | SubmitFreeResponse text i => world_of (app.submitFreeResponse dom net text i w)
  | Submit i => app.submit dom net i w
  | KeyDown key text i => world_of (app.keydown dom net key text i w)
  | KeyDownBegins key text i => world_of (keydown_begins dom key text i w).1
  | SubmitSettles p => submit_settles dom net p w
  | LoadProgress now answer => app.loadProgress dom now answer w
  | PageLoad now answer => app.init dom now answer (reload w)
  end.

(** The field an operation writes by answering a question, if any. *)
Definition operation_answers (op : operation) : option string :=
  match op with
  | Act a => answered_field a
  | _ => None
  end.

(** The property of [coping_forced], of an answer set. *)
Definition answers_forced (r : answers) : Prop :=
  r !! "dysregulation_count" = Some (JNum 0) →
  r !! "used_coping_strategy" = Some (JStr "n/a").

(** The answers of the saved session, if one is stored and parses, have
    the property. *)
Definition session_forced (w : world) : Prop :=
  ∀ p, ls_progress w = Some (Parsed p) → answers_forced (p_responses p).

(** The page loaded again, a minute after its start, on the session
    that [back_before_auto_advance] saved: count 0 and no coping answer. *)
Definition stale_session : world :=
  reload (run every_element back_before_auto_advance initial_world).

Definition resumed_stale_session : world :=
  app.loadProgress every_element 1762164060000 true stale_session.

(** ** A pasted endpoint *)

(** U+00A0, the no-break space, as its two bytes. *)
Definition nbsp : string :=
  String (ascii_of_nat 194) (String (ascii_of_nat 160) EmptyString).

(** A URL as copied from a web page: a no-break space and blanks
    around it. *)
Definition pasted_endpoint : string :=
  nbsp +:+ "  https://example.org/exec " +:+ nbsp.

(** * Properties *)

(** ** Setters and projections *)

Lemma responses_showScreen dom screenId w :
  responses (app.showScreen dom screenId w) = responses w.
Proof. unfold app.showScreen. by destruct (dom screenId). Qed.

Lemma currentScreen_showScreen dom screenId w :
  dom screenId = true →
  currentScreen (app.showScreen dom screenId w) = screenId.
Proof. intros H. unfold app.showScreen. by rewrite H. Qed.

Lemma ls_entries_showScreen dom screenId w :
  ls_entries (app.showScreen dom screenId w) = ls_entries w.
Proof. unfold app.showScreen. by destruct (dom screenId). Qed.

Lemma timers_showScreen dom screenId w :
  timers (app.showScreen dom screenId w) = timers w.
Proof. unfold app.showScreen. by destruct (dom screenId). Qed.

(** ** The flow table *)

Lemma flow_lookup (s : spec.screen) :
  app.flow !! spec.screen_id s =
  Some {| app.next := spec.screen_id <$> spec.chain_next s;
          app.prev := spec.screen_id <$> spec.table_prev s |}.
Proof. by destruct s. Qed.

Lemma screen_id_inj : Inj (=) (=) spec.screen_id.
Proof. intros [] [] H; done. Qed.

Lemma responses_goNext dom w field :
  field ≠ "used_coping_strategy" →
  responses (app.goNext dom w) !! field = responses w !! field.
Proof.
  intros Hne. unfold app.goNext.
  destruct (bool_decide _ && _);
    [|destruct (app.flow !! currentScreen w ≫= app.next)];
    rewrite ?responses_showScreen; simpl; by rewrite ?lookup_insert_ne.
Qed.

Lemma responses_goBack dom w : responses (app.goBack dom w) = responses w.
Proof.
  unfold app.goBack.
  destruct (bool_decide _ && _);
    [|destruct (app.flow !! currentScreen w ≫= app.prev)];
    by rewrite ?responses_showScreen.
Qed.

Lemma dysregulation_is_zero_navigate dom n w :
  app.dysregulation_is_zero (navigate dom n w) = app.dysregulation_is_zero w.
Proof.
  unfold app.dysregulation_is_zero. destruct n; simpl.
  - by rewrite responses_goNext.
  - by rewrite responses_goBack.
Qed.

(** Finds the screen whose identifier the goal names. *)
Ltac screen_present Hdom :=
  first [ exact (Hdom spec.welcome) | exact (Hdom spec.q1)
        | exact (Hdom spec.q2) | exact (Hdom spec.q3) | exact (Hdom spec.q4)
        | exact (Hdom spec.q4b) | exact (Hdom spec.q5) | exact (Hdom spec.done) ].

(** One operation of the controller is one move on the table. *)
Lemma navigate_move dom n w s :
  (∀ s', dom (spec.screen_id s') = true) →
  currentScreen w = spec.screen_id s →
  currentScreen (navigate dom n w) =
  spec.screen_id (spec.move spec.table_prev (app.dysregulation_is_zero w) n s).
Proof.
  intros Hdom Hs. destruct n; simpl.
  - unfold app.goNext. rewrite Hs, flow_lookup. simpl.
    destruct (app.dysregulation_is_zero w); destruct s; simpl;
      by rewrite ?currentScreen_showScreen by screen_present Hdom.
  - unfold app.goBack. rewrite Hs, flow_lookup. simpl.
    destruct (app.dysregulation_is_zero w); destruct s; simpl;
      by rewrite ?currentScreen_showScreen by screen_present Hdom.
Qed.

Lemma run_nav_follow dom ops w s :
  (∀ s', dom (spec.screen_id s') = true) →
  currentScreen w = spec.screen_id s →
  currentScreen (run_nav dom ops w) =
  spec.screen_id (spec.follow spec.table_prev (app.dysregulation_is_zero w) ops s).
Proof.
  intros Hdom. revert w s. induction ops as [|n ops IH]; intros w s Hs; [done|].
  simpl. rewrite (IH _ (spec.move spec.table_prev (app.dysregulation_is_zero w) n s)).
  - by rewrite dysregulation_is_zero_navigate.
  - by apply navigate_move.
Qed.

(** ** C1: the screen flow *)

(** C1, as amended.  For every sequence of goNext()/goBack() operations
    starting at screen welcome, the current screen is the one reached on
    the static chain welcome, q1, q2, q3, q4, q4b, q5, done, whose prev
    pointers are symmetric except that done has none (neither operation
    leaves done), and on which q4b is skipped in both directions when
    dysregulation_count equals 0. *)
Theorem C1_flow_follows_table (dom : string → bool) (w : world) (ops : list nav) :
  (∀ s, dom (spec.screen_id s) = true) →
  currentScreen w = "screen-welcome" →
  currentScreen (run_nav dom ops w) =
  spec.screen_id
    (spec.follow spec.table_prev (app.dysregulation_is_zero w) ops spec.welcome).
Proof. intros Hdom Hw. by apply run_nav_follow. Qed.

Lemma C1_flow_follows_table_witness :
  (∀ s, every_element (spec.screen_id s) = true) ∧
  currentScreen initial_world = "screen-welcome" ∧
  currentScreen (run_nav every_element [Next; Next; Next; Back; Next; Next]
                   initial_world) =
  spec.screen_id
    (spec.follow spec.table_prev (app.dysregulation_is_zero initial_world)
       [Next; Next; Next; Back; Next; Next] spec.welcome).
Proof.
  split; [reflexivity|]. split; [reflexivity|].
  apply (C1_flow_follows_table every_element initial_world
           [Next; Next; Next; Back; Next; Next]); reflexivity.
Defined.

(** C1, as stated, fails: with fully symmetric prev pointers goBack would
    lead from done to q5, but the table gives done no prev and the
    controller stays on done. *)
Lemma C1_symmetric_prev_fails_at_done :
  ¬ (∀ (dom : string → bool) (w : world) (ops : list nav),
       (∀ s, dom (spec.screen_id s) = true) →
       currentScreen w = "screen-welcome" →
       currentScreen (run_nav dom ops w) =
       spec.screen_id
         (spec.follow spec.symmetric_prev (app.dysregulation_is_zero w) ops
            spec.welcome)).
Proof.
  intros H.
  specialize (H every_element initial_world
                [Next; Next; Next; Next; Next; Next; Next; Back]
                (λ _, eq_refl) eq_refl).
  vm_compute in H. discriminate H.
Qed.

(** ** C4: the forced coping answer *)

Lemma coping_forced_goNext dom w :
  coping_forced w → coping_forced (app.goNext dom w).
Proof.
  unfold coping_forced, app.goNext. intros Hw.
  destruct (bool_decide _ && _);
    [|destruct (app.flow !! currentScreen w ≫= app.next)];
    rewrite ?responses_showScreen; simpl; try done.
  intros _. by rewrite lookup_insert_eq.
Qed.

Lemma goNext_from_q4_zero dom w :
  dom "screen-q5" = true →
  currentScreen w = "screen-q4" →
  responses w !! "dysregulation_count" = Some (JNum 0) →
  responses (app.goNext dom w) !! "used_coping_strategy" = Some (JStr "n/a") ∧
  currentScreen (app.goNext dom w) = "screen-q5".
Proof.
  intros Hq5 Hs Hz. unfold app.goNext, app.dysregulation_is_zero.
  rewrite Hs, Hz. simpl.
  rewrite responses_showScreen, currentScreen_showScreen by done. simpl.
  by rewrite lookup_insert_eq.
Qed.

Lemma coping_forced_leaving_q4 dom w :
  currentScreen w = "screen-q4" → coping_forced (app.goNext dom w).
Proof.
  unfold coping_forced, app.goNext. intros Hq4. rewrite Hq4. simpl.
  destruct (app.dysregulation_is_zero w) eqn:Hzero; simpl.
  - rewrite responses_showScreen. simpl. intros _. by rewrite lookup_insert_eq.
  - apply bool_decide_eq_false in Hzero.
    destruct (app.flow !! "screen-q4" ≫= app.next);
      by rewrite ?responses_showScreen.
Qed.

Lemma coping_forced_select dom field value w :
  field ≠ "dysregulation_count" → field ≠ "used_coping_strategy" →
  coping_forced w → coping_forced (world_of (app.select dom field value w)).
Proof.
  unfold coping_forced, app.select. intros Hd Hc Hw.
  destruct (dom _); simpl; by rewrite !lookup_insert_ne.
Qed.

Lemma coping_forced_step dom a w :
  answered_field a ≠ Some "dysregulation_count" →
  answered_field a ≠ Some "used_coping_strategy" →
  coping_forced w → coping_forced (step dom a w).
Proof.
  intros Hd Hc Hw. destruct a; simpl in *.
  - unfold coping_forced, app.start. by rewrite responses_showScreen.
  - by apply coping_forced_goNext.
  - unfold coping_forced. by rewrite responses_goBack.
  - apply coping_forced_select; [by intros ->..|done].
  - apply coping_forced_select; [by intros ->..|done].
  - apply coping_forced_select; [by intros ->..|done].
  - unfold app.timer_fires. destruct (timers w); [done|].
    by apply coping_forced_goNext.
  - unfold coping_forced, app.reset. rewrite responses_showScreen. simpl.
    intros Hzero. vm_compute in Hzero. discriminate Hzero.
Qed.

Lemma session_forced_showScreen dom screenId w :
  coping_forced w → session_forced w →
  session_forced (app.showScreen dom screenId w).
Proof.
  intros Hstate Hsession. unfold app.showScreen.
  destruct (dom screenId); [|done].
  intros p [= <-]. exact Hstate.
Qed.

Lemma session_forced_goNext dom w :
  coping_forced w → session_forced w → session_forced (app.goNext dom w).
Proof.
  intros Hstate Hsession. unfold app.goNext.
  destruct (bool_decide _ && _);
    [|destruct (app.flow !! currentScreen w ≫= app.next); [|done]];
    apply session_forced_showScreen; try done.
  intros _. simpl. by rewrite lookup_insert_eq.
Qed.

Lemma session_forced_goBack dom w :
  coping_forced w → session_forced w → session_forced (app.goBack dom w).
Proof.
  intros Hstate Hsession. unfold app.goBack.
  destruct (bool_decide _ && _);
    [|destruct (app.flow !! currentScreen w ≫= app.prev); [|done]];
    by apply session_forced_showScreen.
Qed.

Lemma session_forced_step dom a w :
  coping_forced w → session_forced w → session_forced (step dom a w).
Proof.
  intros Hstate Hsession. destruct a; simpl.
  - unfold app.start. by apply session_forced_showScreen.
  - by apply session_forced_goNext.
  - by apply session_forced_goBack.
  - unfold app.selectRating, app.select. by destruct (dom _).
  - unfold app.selectChoice, app.select. by destruct (dom _).
  - unfold app.selectNumber, app.select. by destruct (dom _).
  - unfold app.timer_fires. destruct (timers w); [done|].
    by apply session_forced_goNext.
  - unfold app.reset. apply session_forced_showScreen; [|done].
    intros Hzero. vm_compute in Hzero. discriminate Hzero.
Qed.

Lemma responses_submit dom net i w :
  responses (app.submit dom net i w) = responses w.
Proof.
  assert (Hsave : responses (storage.save dom net (app.new_entry i w) w).2
                  = responses w).
  { unfold storage.save, storage.sendToSheets, storage.fetch,
      storage.saveLocal, storage.updateLocalCount, storage.markAsSynced.
    destruct (dom "local-count"); simpl;
      (destruct (decide (sheetsUrl w = "")); simpl; [done|]);
      (destruct (net (fetches w)); simpl; [|done]);
      by destruct (list_find _ _) as [[??]|]. }
  unfold app.submit, app.clearProgress.
  destruct (storage.save _ _ _ _) as [result w']. simpl in *.
  by rewrite responses_showScreen.
Qed.

Lemma ls_progress_submit dom net i w :
  ls_progress (app.submit dom net i w) = None.
Proof. unfold app.submit. by destruct (storage.save _ _ _ _). Qed.

Lemma forced_submit dom net i w :
  coping_forced w →
  coping_forced (app.submit dom net i w) ∧
  session_forced (app.submit dom net i w).
Proof.
  intros Hstate. split.
  - unfold coping_forced. by rewrite responses_submit.
  - intros p Hp. by rewrite ls_progress_submit in Hp.
Qed.

Lemma forced_submitFreeResponse dom net text i w :
  coping_forced w → session_forced w →
  coping_forced (world_of (app.submitFreeResponse dom net text i w)) ∧
  session_forced (world_of (app.submitFreeResponse dom net text i w)).
Proof.
  intros Hstate Hsession. unfold app.submitFreeResponse.
  destruct (dom "free-response"); [|done]. simpl.
  apply forced_submit. unfold coping_forced. simpl.
  by rewrite !lookup_insert_ne.
Qed.

Lemma forced_loadProgress dom now answer w :
  coping_forced w → session_forced w →
  coping_forced (app.loadProgress dom now answer w) ∧
  session_forced (app.loadProgress dom now answer w).
Proof.
  intros Hstate Hsession. unfold app.loadProgress.
  destruct (ls_progress w) as [[raw|p]|] eqn:Hp; [| |done].
  - destruct (decide (raw = "")); [done|]. split; [done|].
    intros p Hnone. discriminate Hnone.
  - assert (Hsaved : answers_forced (p_responses p)) by (by apply Hsession).
    destruct (app.started_within_last_hour now (p_startTime p)).
    + assert (Hrestored : coping_forced (app.restore p w)) by done.
      assert (Hkept : session_forced (app.restore p w)).
      { intros p' Hp'. simpl in Hp'. by apply Hsession. }
      case_bool_decide; [|done].
      destruct answer.
      * split.
        -- unfold coping_forced. by rewrite responses_showScreen.
        -- by apply session_forced_showScreen.
      * split; [done|]. intros p' Hnone. discriminate Hnone.
    + split; [done|]. intros p' Hnone. discriminate Hnone.
Qed.

Lemma saveLocal_keeps_session dom e w :
  responses (storage.saveLocal dom e w) = responses w
  ∧ ls_progress (storage.saveLocal dom e w) = ls_progress w.
Proof.
  unfold storage.saveLocal, storage.updateLocalCount.
  by destruct (dom "local-count").
Qed.

Lemma forced_submit_begins dom i w :
  coping_forced w → session_forced w →
  coping_forced (submit_begins dom i w).1 ∧
  session_forced (submit_begins dom i w).1.
Proof.
  intros Hstate Hsession. unfold submit_begins.
  destruct (saveLocal_keeps_session dom (app.new_entry i w) w) as [Hr Hp].
  destruct (decide (sheetsUrl _ = "")); simpl.
  - split.
    + unfold coping_forced, app.clearProgress. simpl.
      by rewrite responses_showScreen, Hr.
    + intros p Hnone. discriminate Hnone.
  - split.
    + unfold coping_forced. simpl. by rewrite Hr.
    + intros p. simpl. rewrite Hp. apply Hsession.
Qed.

Lemma forced_keydown_begins dom key text i w :
  coping_forced w → session_forced w →
  coping_forced (world_of (keydown_begins dom key text i w).1) ∧
  session_forced (world_of (keydown_begins dom key text i w).1).
Proof.
  intros Hstate Hsession. unfold keydown_begins.
  destruct (bool_decide _ && _); [|done].
  destruct (dom "free-response"); [|done].
  match goal with
  | |- context [submit_begins dom i ?x] =>
      destruct (forced_submit_begins dom i x) as [H1 H2];
        [|exact Hsession|by destruct (submit_begins dom i x)]
  end.
  unfold coping_forced. simpl. by rewrite !lookup_insert_ne.
Qed.

Lemma forced_submit_settles dom net p w :
  coping_forced w →
  coping_forced (submit_settles dom net p w) ∧
  session_forced (submit_settles dom net p w).
Proof.
  intros Hstate. unfold submit_settles, app.clearProgress. split.
  - unfold coping_forced. simpl. rewrite responses_showScreen.
    destruct (net (request p)); [|done].
    unfold storage.markAsSynced. by destruct (list_find _ _) as [[??]|].
  - intros p' Hnone. discriminate Hnone.
Qed.

(** Every operation other than an answer to one of the two fields keeps
    the property, of the state and of the saved session together. *)
Lemma forced_perform dom net op w :
  operation_answers op ≠ Some "dysregulation_count" →
  operation_answers op ≠ Some "used_coping_strategy" →
  coping_forced w → session_forced w →
  coping_forced (perform dom net op w) ∧ session_forced (perform dom net op w).
Proof.
  intros Hd Hc Hstate Hsession.
  destruct op as [a|screenId| | |text i|i|key text i|key text i|p
                  |now answer|now answer]; simpl in *.
  - split; [by apply coping_forced_step|by apply session_forced_step].
  - split; [|by apply session_forced_showScreen].
    unfold coping_forced. by rewrite responses_showScreen.
  - split; [done|]. intros p [= <-]. exact Hstate.
  - split; [done|]. intros p Hnone. discriminate Hnone.
  - by apply forced_submitFreeResponse.
  - by apply forced_submit.
  - unfold app.keydown. destruct (bool_decide _ && _); [|done].
    by apply forced_submitFreeResponse.
  - by apply forced_keydown_begins.
  - by apply forced_submit_settles.
  - by apply forced_loadProgress.
  - unfold app.init. apply forced_loadProgress; [|done].
    intros Hzero. vm_compute in Hzero. discriminate Hzero.
Qed.

(** The session saved with count 0 and no coping answer, and the state
    a resume makes of it. *)
Lemma stale_session_saved :
  ∃ p, ls_progress stale_session = Some (Parsed p) ∧
       p_responses p !! "dysregulation_count" = Some (JNum 0) ∧
       p_responses p !! "used_coping_strategy" = Some JNull.
Proof. eexists. split; [vm_compute; reflexivity|]. vm_compute. done. Qed.

Lemma stale_session_resumed :
  responses resumed_stale_session !! "dysregulation_count" = Some (JNum 0) ∧
  responses resumed_stale_session !! "used_coping_strategy" = Some JNull.
Proof. vm_compute. done. Qed.

(** C4, as amended.  After setting dysregulation_count to 0 on q4 and
    then advancing (by goNext or by the auto-advance timer the answer
    armed), used_coping_strategy equals n/a and the current screen is q5.
    The property that used_coping_strategy is n/a whenever
    dysregulation_count equals 0 holds after every goNext that leaves
    q4.  It holds initially, of the state and (vacuously) of the saved
    session.  Every operation of the controller other than an answer to
    dysregulation_count or to used_coping_strategy keeps it, of the
    state and of the answers of the saved session together: start,
    goNext, goBack, the auto-advance timer, reset, an answer to another
    field, showScreen, saveProgress, clearProgress, the free-response
    submission, submit and the Enter key (run to the end, or up to the
    await and from the settled request on), resume-on-load and a whole
    page load.  Of the state alone it is kept by the page actions, but
    not by resume-on-load, which restores the saved answers: a page
    loaded on a session saved with count 0 and no coping answer has the
    property of its state, not of its saved session, and after the
    resume not of its state either. *)
Theorem C4_coping_forced_by_advance
    (dom : string → bool) (net : nat → settled) (w : world) :
  dom "screen-q4" = true →
  dom "screen-q5" = true →
  currentScreen w = "screen-q4" →
  let answered := step dom (SelectNumber "dysregulation_count" 0) w in
  (∀ a, a = GoNext ∨ a = TimerFires →
     responses (step dom a answered) !! "used_coping_strategy"
       = Some (JStr "n/a") ∧
     currentScreen (step dom a answered) = "screen-q5") ∧
  (∀ w', currentScreen w' = "screen-q4" → coping_forced (app.goNext dom w')) ∧
  (∀ a w', answered_field a ≠ Some "dysregulation_count" →
           answered_field a ≠ Some "used_coping_strategy" →
           coping_forced w' → coping_forced (step dom a w')) ∧
  (coping_forced initial_world ∧ session_forced initial_world) ∧
  (∀ op w', operation_answers op ≠ Some "dysregulation_count" →
            operation_answers op ≠ Some "used_coping_strategy" →
            coping_forced w' → session_forced w' →
            coping_forced (perform dom net op w') ∧
            session_forced (perform dom net op w')) ∧
  (coping_forced stale_session ∧ ¬ session_forced stale_session ∧
   ¬ coping_forced resumed_stale_session).
Proof.
  intros Hq4 Hq5 Hs answered. split; [|split; [|split; [|split; [|split]]]].
  - assert (Hans : answered =
      set_timers (S (timers w))
        (set_responses (<["dysregulation_count" := JNum 0]> (responses w)) w)).
    { unfold answered. simpl. unfold app.selectNumber, app.select. simpl.
      by rewrite Hs, Hq4. }
    intros a [-> | ->]; simpl.
    + apply goNext_from_q4_zero; [done|by rewrite Hans|].
      rewrite Hans. simpl. by rewrite lookup_insert_eq.
    + unfold app.timer_fires. rewrite Hans. simpl.
      apply goNext_from_q4_zero; [done|done|].
      simpl. by rewrite lookup_insert_eq.
  - intros w'. apply coping_forced_leaving_q4.
  - intros a w'. apply coping_forced_step.
  - split.
    + intros Hzero. vm_compute in Hzero. discriminate Hzero.
    + intros p Hp. discriminate Hp.
  - intros op w'. apply forced_perform.
  - destruct stale_session_saved as (p & Hp & Hzero & Hcoping).
    destruct stale_session_resumed as [Hzero' Hcoping'].
    split_and!.
    + intros Hnone. vm_compute in Hnone. discriminate Hnone.
    + intros Hsession. specialize (Hsession p Hp Hzero).
      rewrite Hcoping in Hsession. discriminate Hsession.
    + intros Hstate. specialize (Hstate Hzero').
      rewrite Hcoping' in Hstate. discriminate Hstate.
Qed.

Lemma C4_coping_forced_by_advance_witness :
  every_element "screen-q4" = true ∧
  every_element "screen-q5" = true ∧
  currentScreen at_q4 = "screen-q4" ∧
  responses (step every_element TimerFires
               (step every_element (SelectNumber "dysregulation_count" 0) at_q4))
    !! "used_coping_strategy" = Some (JStr "n/a") ∧
  currentScreen (step every_element TimerFires
                   (step every_element (SelectNumber "dysregulation_count" 0) at_q4))
    = "screen-q5".
Proof.
  split; [reflexivity|]. split; [reflexivity|]. split; [reflexivity|].
  apply (C4_coping_forced_by_advance every_element always_fulfilled at_q4);
    [reflexivity | reflexivity | reflexivity | right; reflexivity].
Defined.

(** The state the session [back_before_auto_advance] ends in: on q4, no
    timer pending, count 0 and no coping answer. *)
Lemma stale_timer_state :
  let w := run every_element back_before_auto_advance initial_world in
  currentScreen w = "screen-q4" ∧ timers w = 0%nat ∧
  responses w !! "dysregulation_count" = Some (JNum 0) ∧
  responses w !! "used_coping_strategy" = Some JNull.
Proof. vm_compute. done. Qed.

(** C4, as stated, fails: the invariant does not hold in every reachable
    state.  The answer 0 is stored at once, the coping answer is only
    forced by the next advance from q4. *)
Lemma C4_invariant_fails_before_advance :
  ¬ (∀ (dom : string → bool) (w : world), reachable dom w → coping_forced w).
Proof.
  intros H.
  specialize (H every_element _ (ex_intro _ back_before_auto_advance eq_refl)).
  destruct stale_timer_state as (_ & _ & Hzero & Hcoping).
  specialize (H Hzero). rewrite Hcoping in H. discriminate H.
Qed.

(** ** The store under [saveLocal] and [markAsSynced] *)

Lemma set_synced_synced e : e_synced e = true → set_synced e = e.
Proof. destruct e. simpl. by intros ->. Qed.

Lemma set_synced_idemp e : set_synced (set_synced e) = set_synced e.
Proof. done. Qed.

Lemma same_but_synced_refl e : same_but_synced e e.
Proof. by left. Qed.

Lemma same_but_synced_trans e1 e2 e3 :
  same_but_synced e1 e2 → same_but_synced e2 e3 → same_but_synced e1 e3.
Proof. intros [-> | ->] [-> | ->]; (by left) || (by right). Qed.

Lemma same_but_synced_id e e' : same_but_synced e e' → e_id e' = e_id e.
Proof. by intros [-> | ->]. Qed.

Lemma getLocalEntries_emit x w :
  storage.getLocalEntries (emit x w) = storage.getLocalEntries w.
Proof. done. Qed.

Lemma getLocalEntries_set_fetches n w :
  storage.getLocalEntries (set_fetches n w) = storage.getLocalEntries w.
Proof. done. Qed.

Lemma getLocalEntries_showStatus dom elementId message type w :
  storage.getLocalEntries (storage.showStatus dom elementId message type w)
  = storage.getLocalEntries w.
Proof. unfold storage.showStatus. by destruct (dom _). Qed.

Lemma showStatus_present dom elementId message type w :
  dom elementId = true →
  storage.showStatus dom elementId message type w
  = emit (ShowStatus elementId message type) w.
Proof. intros H. unfold storage.showStatus. by rewrite H. Qed.

Lemma getLocalEntries_saveLocal dom e w :
  storage.getLocalEntries (storage.saveLocal dom e w)
  = storage.getLocalEntries w ++ [e].
Proof.
  unfold storage.saveLocal, storage.updateLocalCount. by destruct (dom _).
Qed.

Lemma getLocalEntries_markAsSynced entryId w :
  storage.getLocalEntries (storage.markAsSynced entryId w)
  = mark_first entryId (storage.getLocalEntries w).
Proof.
  unfold storage.markAsSynced, mark_first.
  by destruct (list_find _ _) as [[index e]|].
Qed.

Lemma mark_first_flip entryId l :
  mark_first entryId l = l ∨ sync_flip l (mark_first entryId l).
Proof.
  unfold mark_first. destruct (list_find _ l) as [[index e]|] eqn:Hfind.
  - right. by econstructor.
  - by left.
Qed.

Lemma sync_flip_same l l' : sync_flip l l' → Forall2 same_but_synced l l'.
Proof.
  intros [l0 entryId index e Hfind].
  apply Forall2_alter_r.
  - apply Forall_Forall2_diag, Forall_forall. intros; apply same_but_synced_refl.
  - intros x y Hx Hy _. rewrite Hx in Hy. injection Hy as <-. by right.
Qed.

Lemma sync_flips_same l l' : rtc sync_flip l l' → Forall2 same_but_synced l l'.
Proof.
  induction 1 as [l|l1 l2 l3 H12 _ IH].
  - apply Forall_Forall2_diag, Forall_forall. intros; apply same_but_synced_refl.
  - apply sync_flip_same in H12.
    eapply Forall2_trans; [|done..].
    intros ???. apply same_but_synced_trans.
Qed.

Lemma mark_first_same entryId l : Forall2 same_but_synced l (mark_first entryId l).
Proof.
  destruct (mark_first_flip entryId l) as [-> | H].
  - apply Forall_Forall2_diag, Forall_forall. intros; apply same_but_synced_refl.
  - by apply sync_flip_same.
Qed.

Lemma same_but_synced_ids l l' :
  Forall2 same_but_synced l l' → e_id <$> l' = e_id <$> l.
Proof.
  induction 1 as [|e e' l l' He _ IH]; [done|].
  by rewrite !fmap_cons, IH, (same_but_synced_id _ _ He).
Qed.

Lemma same_but_synced_kept l l' :
  Forall2 same_but_synced l l' → kept_in_place l l'.
Proof.
  intros H i e Hi.
  destruct (Forall2_lookup_l _ _ _ _ _ H Hi) as (e' & ? & ?). eauto.
Qed.

Lemma occurrences_ids entryId l :
  occurrences entryId l = length (filter (λ s, s = entryId) (e_id <$> l)).
Proof.
  unfold occurrences. induction l as [|e l IH]; [done|].
  rewrite fmap_cons, !filter_cons. simpl.
  destruct (decide (e_id e = entryId)); simpl; by rewrite IH.
Qed.

Lemma occurrences_app entryId l1 l2 :
  occurrences entryId (l1 ++ l2)
  = (occurrences entryId l1 + occurrences entryId l2)%nat.
Proof. unfold occurrences. by rewrite filter_app, length_app. Qed.

Lemma occurrences_none entryId l :
  occurrences entryId l = 0%nat → list_find (λ x, e_id x = entryId) l = None.
Proof.
  unfold occurrences. intros H. apply list_find_None.
  induction l as [|e l IH]; [constructor|].
  rewrite filter_cons in H. destruct (decide (e_id e = entryId)); [done|].
  constructor; auto.
Qed.

Lemma mark_first_fresh e l :
  occurrences (e_id e) l = 0%nat →
  mark_first (e_id e) (l ++ [e]) = l ++ [set_synced e].
Proof.
  intros H%occurrences_none. unfold mark_first.
  rewrite list_find_app_r by done. simpl.
  rewrite decide_True by done. simpl.
  match goal with
  | |- alter _ ?i _ = _ => replace i with (length l + 0)%nat by lia
  end.
  by rewrite alter_app_r.
Qed.

(** What [save] leaves in the store and what it returns. *)
Lemma save_unfold dom net e w :
  storage.save dom net e w =
  let saved := storage.saveLocal dom e w in
  if decide (sheetsUrl w = "") then
    ({| storage.success := true; storage.synced := false;
        storage.error := None |}, saved)
  else
    match net (fetches w) with
    | Fulfilled =>
        ({| storage.success := true; storage.synced := true;
            storage.error := None |},
         storage.markAsSynced (e_id e) (set_fetches (S (fetches w)) saved))
    | Rejected message =>
        ({| storage.success := true; storage.synced := false;
            storage.error := Some message |},
         emit (ConsoleWarn message) (set_fetches (S (fetches w)) saved))
    end.
Proof.
  unfold storage.save, storage.sendToSheets, storage.fetch,
    storage.saveLocal, storage.updateLocalCount.
  destruct (dom "local-count"); simpl;
    destruct (decide (sheetsUrl w = "")); simpl; try done;
    by destruct (net (fetches w)).
Qed.

(** The store [save] leaves: the entry appended, and its flag raised by
    [markAsSynced] when the result says synced. *)
Lemma save_store dom net e w :
  let before := storage.getLocalEntries w in
  let result := (storage.save dom net e w).1 in
  let after := storage.getLocalEntries (storage.save dom net e w).2 in
  Forall2 same_but_synced (before ++ [e]) after ∧
  (storage.synced result = false → after = before ++ [e]) ∧
  (storage.synced result = true → after = mark_first (e_id e) (before ++ [e])).
Proof.
  intros before result after.
  unfold after, result, before. rewrite save_unfold. simpl.
  destruct (decide (sheetsUrl w = "")); [|destruct (net (fetches w))]; simpl;
    rewrite ?getLocalEntries_markAsSynced, ?getLocalEntries_emit,
      ?getLocalEntries_set_fetches, ?getLocalEntries_saveLocal;
    (split; [|done]).
  - apply Forall_Forall2_diag, Forall_forall. intros; apply same_but_synced_refl.
  - apply mark_first_same.
  - apply Forall_Forall2_diag, Forall_forall. intros; apply same_but_synced_refl.
Qed.

(** ** C2: save is local first *)

(** C2.  For every entry and every gateway state (endpoint configured or
    not, remote call fulfilled or rejected), save(entry) appends the
    entry to the Local Entry Store exactly once: the store after is the
    store before plus one element at the end, which is the entry (with
    at most the sync flag raised, as for the entries before it), so the
    number of stored entries with its identifier grows by exactly one,
    to exactly one when the identifier was not stored yet.  The local
    copy is there whatever the remote call did; the result reports
    success, a boolean synced flag that is true exactly when a remote
    call was made and went through (the stored entry is then flagged),
    and an error message exactly when the remote call failed. *)
Theorem C2_save_keeps_local_copy
    (dom : string → bool) (net : nat → settled) (e : entry) (w : world) :
  let before := storage.getLocalEntries w in
  let result := (storage.save dom net e w).1 in
  let after := storage.getLocalEntries (storage.save dom net e w).2 in
  (∃ before' stored,
     after = before' ++ [stored] ∧
     Forall2 same_but_synced before before' ∧ same_but_synced e stored) ∧
  occurrences (e_id e) after = S (occurrences (e_id e) before) ∧
  (occurrences (e_id e) before = 0%nat → occurrences (e_id e) after = 1%nat) ∧
  storage.success result = true ∧
  (storage.synced result = true ↔
     sheetsUrl w ≠ "" ∧ net (fetches w) = Fulfilled) ∧
  (∀ message, storage.error result = Some message ↔
     sheetsUrl w ≠ "" ∧ net (fetches w) = Rejected message) ∧
  (storage.synced result = false → after = before ++ [e]) ∧
  (storage.synced result = true → occurrences (e_id e) before = 0%nat →
     after = before ++ [set_synced e]).
Proof.
  intros before result after.
  pose proof (save_store dom net e w) as Hsame. simpl in Hsame.
  fold before result after in Hsame.
  destruct Hsame as (Hsame & Hunsynced & Hsynced).
  assert (Hocc : occurrences (e_id e) after = S (occurrences (e_id e) before)).
  { rewrite (occurrences_ids _ after), (same_but_synced_ids _ _ Hsame).
    rewrite <-occurrences_ids, occurrences_app. unfold occurrences at 2.
    rewrite filter_cons, decide_True by done. simpl. lia. }
  split; [|split; [done|split; [lia|]]].
  { apply Forall2_app_inv_l in Hsame as (before' & k & Hb & Hk & ->).
    apply Forall2_cons_inv_l in Hk as (stored & k' & Hstored & Hnil & ->).
    apply Forall2_nil_inv_l in Hnil as ->. eauto. }
  split; [|split; [|split; [|split; [done|]]]].
  - unfold result. rewrite save_unfold. simpl.
    destruct (decide (sheetsUrl w = "")); [|destruct (net (fetches w))]; done.
  - unfold result. rewrite save_unfold. simpl.
    destruct (decide (sheetsUrl w = "")); [|destruct (net (fetches w))]; simpl;
      intuition congruence.
  - intros message. unfold result. rewrite save_unfold. simpl.
    destruct (decide (sheetsUrl w = "")); [|destruct (net (fetches w))]; simpl;
      intuition congruence.
  - intros Hs Hfresh. rewrite (Hsynced Hs). by apply mark_first_fresh.
Qed.

Lemma C2_save_keeps_local_copy_witness :
  let saved := storage.save every_element always_rejected sample_entry initial_world in
  occurrences (e_id sample_entry) (storage.getLocalEntries saved.2) = 1%nat ∧
  storage.error saved.1 = Some "Failed to fetch".
Proof.
  destruct (C2_save_keeps_local_copy every_element always_rejected sample_entry
              initial_world) as (_ & _ & Hfresh & _ & _ & Herror & _).
  split.
  - apply Hfresh. reflexivity.
  - apply Herror. split; [discriminate | reflexivity].
Defined.

(** ** The sync loop *)

Lemma flag_all_nil l : flag_all [] l = l.
Proof.
  unfold flag_all. rewrite <-(list_fmap_id l) at 2.
  apply list_fmap_ext. intros i e _. rewrite decide_False; [done|].
  apply not_elem_of_nil.
Qed.

Lemma flag_all_ids ids l : e_id <$> flag_all ids l = e_id <$> l.
Proof.
  unfold flag_all. rewrite <-list_fmap_compose. apply list_fmap_ext.
  intros i e _. simpl. by destruct (decide _).
Qed.

Lemma flag_all_flag_all ids1 ids2 l :
  flag_all ids2 (flag_all ids1 l) = flag_all (ids1 ++ ids2) l.
Proof.
  unfold flag_all. rewrite <-list_fmap_compose. apply list_fmap_ext.
  intros i e _. simpl.
  destruct (decide (e_id e ∈ ids1)) as [H1|H1]; simpl;
    destruct (decide (e_id e ∈ ids2)) as [H2|H2];
    destruct (decide (e_id e ∈ ids1 ++ ids2)) as [H|H]; try done;
    exfalso; apply H || (apply elem_of_app in H; tauto); apply elem_of_app; tauto.
Qed.

Lemma mark_first_NoDup entryId l :
  NoDup (e_id <$> l) → mark_first entryId l = flag_all [entryId] l.
Proof.
  intros Hnd. unfold mark_first, flag_all.
  destruct (list_find _ l) as [[i x]|] eqn:Hfind.
  - apply list_find_Some in Hfind as (Hi & Hx & _).
    apply list_eq. intros j. rewrite list_lookup_fmap, list_lookup_alter.
    destruct (decide (i = j)) as [<-|Hne].
    + rewrite Hi. simpl. rewrite decide_True; [done|]. set_solver.
    + destruct (l !! j) as [y|] eqn:Hj; [|done]. simpl.
      rewrite decide_False; [done|]. intros Hy%list_elem_of_singleton.
      apply Hne. apply (NoDup_lookup (e_id <$> l) i j entryId Hnd).
      * by rewrite list_lookup_fmap, Hi; simpl; rewrite Hx.
      * by rewrite list_lookup_fmap, Hj; simpl; rewrite Hy.
  - apply list_find_None in Hfind. rewrite <-(list_fmap_id l) at 1.
    apply Forall_fmap_ext_1. eapply Forall_impl; [done|].
    intros y Hy. simpl. rewrite decide_False; [done|].
    by intros ?%list_elem_of_singleton.
Qed.

Lemma foldl_mark_first ds l :
  NoDup (e_id <$> l) →
  foldl (λ l e, mark_first (e_id e) l) l ds = flag_all (e_id <$> ds) l.
Proof.
  revert l. induction ds as [|d ds IH]; intros l Hnd; simpl.
  - by rewrite flag_all_nil.
  - rewrite mark_first_NoDup by done.
    rewrite IH by (by rewrite flag_all_ids).
    by rewrite flag_all_flag_all.
Qed.

Lemma flag_all_unsynced l :
  flag_all (e_id <$> unsynced l) l = set_synced <$> l.
Proof.
  unfold flag_all. apply Forall_fmap_ext_1, Forall_forall. intros e He.
  destruct (decide _) as [|Hnot]; [done|].
  destruct (e_synced e) eqn:Hs; [by rewrite set_synced_synced|].
  exfalso. apply Hnot. apply list_elem_of_fmap. exists e. split; [done|].
  by apply list_elem_of_filter.
Qed.

Lemma length_delivered net k pending :
  (length (delivered net k pending) ≤ length pending)%nat.
Proof.
  revert k. induction pending as [|e rest IH]; intros k; simpl; [done|].
  destruct (net k); simpl; specialize (IH (S k)); lia.
Qed.

Lemma delivered_all net k pending :
  (∀ n, net n = Fulfilled) → delivered net k pending = pending.
Proof.
  intros H. revert k. induction pending as [|e rest IH]; intros k; simpl; [done|].
  by rewrite H, IH.
Qed.

Lemma delivered_none net k pending :
  (∀ n, ∃ message, net n = Rejected message) → delivered net k pending = [].
Proof.
  intros H. revert k. induction pending as [|e rest IH]; intros k; simpl; [done|].
  destruct (H k) as [message ->]. apply IH.
Qed.

Lemma sheetsUrl_markAsSynced entryId w :
  sheetsUrl (storage.markAsSynced entryId w) = sheetsUrl w.
Proof. unfold storage.markAsSynced. by destruct (list_find _ _) as [[??]|]. Qed.

Lemma fetches_markAsSynced entryId w :
  fetches (storage.markAsSynced entryId w) = fetches w.
Proof. unfold storage.markAsSynced. by destruct (list_find _ _) as [[??]|]. Qed.

(** The loop sends every pending entry, one request each, whatever the
    outcomes; it flags the delivered ones and counts both kinds. *)
Lemma syncLoop_run net pending nsynced nfailed w :
  sheetsUrl w ≠ "" →
  let ds := delivered net (fetches w) pending in
  ∃ w', storage.syncLoop net pending nsynced nfailed w
        = ((nsynced + length ds)%nat,
           (nfailed + (length pending - length ds))%nat, w') ∧
        fetches w' = (fetches w + length pending)%nat ∧
        storage.getLocalEntries w'
        = foldl (λ l e, mark_first (e_id e) l) (storage.getLocalEntries w) ds.
Proof.
  revert nsynced nfailed w.
  induction pending as [|e rest IH]; intros nsynced nfailed w Hurl; simpl.
  { exists w. split_and!; [repeat f_equal; lia|lia|done]. }
  unfold storage.sendToSheets, storage.fetch.
  rewrite decide_False by done.
  destruct (net (fetches w)) as [|message] eqn:Hnet; simpl.
  - destruct (IH (S nsynced) nfailed
                (storage.markAsSynced (e_id e) (set_fetches (S (fetches w)) w)))
      as (w' & Hloop & Hfetches & Hstore).
    { by rewrite sheetsUrl_markAsSynced. }
    rewrite fetches_markAsSynced in Hloop, Hfetches, Hstore. simpl in *.
    exists w'. rewrite Hloop, Hfetches, Hstore.
    rewrite getLocalEntries_markAsSynced, getLocalEntries_set_fetches.
    split_and!; [repeat f_equal; lia|lia|done].
  - destruct (IH nsynced (S nfailed)
                (emit (ConsoleError message) (set_fetches (S (fetches w)) w)))
      as (w' & Hloop & Hfetches & Hstore); [done|].
    simpl in *. exists w'. rewrite Hloop, Hfetches, Hstore.
    pose proof (length_delivered net (S (fetches w)) rest).
    split_and!; [repeat f_equal; lia|lia|done].
Qed.

(** [syncAll] on a configured gateway, in terms of the delivered entries. *)
Lemma syncAll_run dom net w :
  sheetsUrl w ≠ "" →
  dom "sync-status" = true →
  let before := storage.getLocalEntries w in
  let pending := unsynced before in
  let ds := delivered net (fetches w) pending in
  let w' := storage.syncAll dom net w in
  fetches w' = (fetches w + length pending)%nat ∧
  ((0 < length pending)%nat →
     head (log w') = Some (sync_report (length ds) (length pending - length ds))) ∧
  storage.getLocalEntries w' = foldl (λ l e, mark_first (e_id e) l) before ds.
Proof.
  intros Hurl Hdom before pending ds w'.
  unfold w', storage.syncAll. rewrite decide_False by done.
  fold before. fold (unsynced before). fold pending.
  destruct (decide (length pending = 0%nat)) as [Hzero|Hpos].
  - assert (Hds : ds = []).
    { unfold ds. destruct pending; [done|discriminate Hzero]. }
    rewrite getLocalEntries_showStatus. unfold storage.showStatus.
    rewrite Hdom, Hzero, Hds. simpl. split_and!; [lia|lia|done].
  - rewrite (showStatus_present dom "sync-status" _ "" w) by done.
    match goal with
    | |- context [storage.syncLoop net pending 0 0 ?w0] =>
        destruct (syncLoop_run net pending 0 0 w0 Hurl)
          as (w1 & Hloop & Hfetches & Hstore)
    end.
    simpl in Hloop, Hfetches, Hstore. fold ds in Hloop, Hstore.
    rewrite Hloop. unfold sync_report.
    rewrite getLocalEntries_emit in Hstore.
    destruct (decide (length pending - length ds = 0)%nat);
      rewrite showStatus_present by done;
      by rewrite getLocalEntries_emit, Hstore.
Qed.

(** ** C5: syncAll *)

Lemma flag_all_fields ids l :
  Forall2 (λ e e', same_apart_from_sync e e' ∧
                   e_synced e' = e_synced e || bool_decide (e_id e ∈ ids))
    l (flag_all ids l).
Proof.
  unfold flag_all. apply Forall2_fmap_r, Forall_Forall2_diag, Forall_forall.
  intros e _. unfold same_apart_from_sync, compose.
  destruct (decide (e_id e ∈ ids)) as [Hin|Hin].
  - rewrite (bool_decide_eq_true_2 _ Hin), orb_true_r. done.
  - rewrite (bool_decide_eq_false_2 _ Hin), orb_false_r. done.
Qed.

(** X25.  On a configured gateway whose stored identifiers are unique
    and whose page shows the sync status: syncAll sends one request per
    unsynced entry whatever the outcomes, so a failure never stops the
    iteration; afterwards an entry is flagged exactly if it was flagged
    before or its request went through, and no other field of any entry
    has changed.  When every remote call succeeds all entries are
    flagged and the report counts no failure; when every remote call
    fails the report counts N failures, no success, and the store is
    unchanged. *)
Theorem syncAll_marks_and_counts
    (dom : string → bool) (net : nat → settled) (w : world) :
  sheetsUrl w ≠ "" →
  dom "sync-status" = true →
  NoDup (e_id <$> storage.getLocalEntries w) →
  let before := storage.getLocalEntries w in
  let pending := unsynced before in
  let N := length pending in
  let ds := delivered net (fetches w) pending in
  let w' := storage.syncAll dom net w in
  let after := storage.getLocalEntries w' in
  (fetches w' = (fetches w + N)%nat ∧
   after = flag_all (e_id <$> ds) before ∧
   Forall2 (λ e e', same_apart_from_sync e e' ∧
                    e_synced e' = e_synced e || bool_decide (e_id e ∈ e_id <$> ds))
     before after ∧
   ((0 < N)%nat →
      head (log w') = Some (sync_report (length ds) (N - length ds)))) ∧
  ((∀ n, net n = Fulfilled) →
     after = set_synced <$> before ∧
     Forall (λ e, e_synced e = true) after ∧
     ((0 < N)%nat →
        head (log w') =
        Some (ShowStatus "sync-status"
                ("Successfully synced " +:+ pretty N +:+ " entries!")
                "success"))) ∧
  ((∀ n, ∃ message, net n = Rejected message) →
     after = before ∧
     ((0 < N)%nat →
        head (log w') =
        Some (ShowStatus "sync-status"
                ("Synced 0 entries, " +:+ pretty N +:+ " failed") "error"))).
Proof.
  intros Hurl Hdom Hnd before pending N ds w' after.
  destruct (syncAll_run dom net w Hurl Hdom) as (Hfetches & Hreport & Hstore).
  fold before pending ds w' in Hfetches, Hreport, Hstore. fold N in Hfetches, Hreport.
  fold after in Hstore.
  rewrite foldl_mark_first in Hstore by done.
  split; [split_and!; [done|done| |done]|].
  { rewrite Hstore. apply flag_all_fields. }
  split.
  - intros Hall.
    assert (Hds : ds = pending) by (by apply delivered_all).
    rewrite Hstore, Hds. split_and!; [apply flag_all_unsynced| |].
    + unfold pending. rewrite flag_all_unsynced.
      apply Forall_fmap, Forall_forall. by intros e _.
    + intros HN. rewrite (Hreport HN), Hds. fold N.
      unfold sync_report. by rewrite Nat.sub_diag.
  - intros Hnone.
    assert (Hds : ds = []) by (by apply delivered_none).
    rewrite Hstore, Hds. split; [apply flag_all_nil|].
    intros HN. rewrite (Hreport HN), Hds. simpl.
    unfold sync_report. rewrite Nat.sub_0_r, decide_False by lia. done.
Qed.

Lemma syncAll_marks_and_counts_witness :
  sheetsUrl two_pending ≠ "" ∧
  every_element "sync-status" = true ∧
  NoDup (e_id <$> storage.getLocalEntries two_pending) ∧
  Forall (λ e, e_synced e = true)
    (storage.getLocalEntries
       (storage.syncAll every_element always_fulfilled two_pending)) ∧
  storage.getLocalEntries (storage.syncAll every_element always_rejected two_pending)
  = storage.getLocalEntries two_pending.
Proof.
  assert (Hurl : sheetsUrl two_pending ≠ "") by discriminate.
  assert (Hnd : NoDup (e_id <$> storage.getLocalEntries two_pending)).
  { apply (bool_decide_unpack _). vm_compute. exact I. }
  split; [exact Hurl|]. split; [reflexivity|]. split; [exact Hnd|]. split.
  - apply (syncAll_marks_and_counts every_element always_fulfilled two_pending
             Hurl eq_refl Hnd). intros n. reflexivity.
  - apply (syncAll_marks_and_counts every_element always_rejected two_pending
             Hurl eq_refl Hnd). intros n. eexists. reflexivity.
Defined.

(** C5: what the code does at the failing input.  The store holds two
    unsynced entries under one identifier (two submissions that read
    the same clock value and drew the same suffix).  syncAll, with every
    remote call succeeding, sends both requests and reports
    Successfully synced 2 entries!, but markAsSynced finds the first
    entry both times: the second entry is still unsynced.  The claim
    says all N entries are marked synced. *)
Theorem C5_syncAll_misses_a_repeated_id :
  let synced := storage.syncAll every_element always_fulfilled collided_store in
  sheetsUrl collided_store ≠ "" ∧
  e_id <$> storage.getLocalEntries collided_store
  = ["entry_1762164061500_k3v9x0q2m"; "entry_1762164061500_k3v9x0q2m"] ∧
  e_synced <$> storage.getLocalEntries collided_store = [false; false] ∧
  fetches synced = (fetches collided_store + 2)%nat ∧
  e_synced <$> storage.getLocalEntries synced = [true; false] ∧
  head (log synced)
  = Some (ShowStatus "sync-status" "Successfully synced 2 entries!" "success").
Proof. vm_compute. split_and!; (discriminate || reflexivity). Qed.

(** ** Identifiers *)

Lemma occurs_app c s1 s2 : occurs c (s1 +:+ s2) = occurs c s1 || occurs c s2.
Proof.
  induction s1 as [|c' s1 IH]; [done|].
  change (String c' s1 +:+ s2) with (String c' (s1 +:+ s2)). simpl.
  by rewrite IH, orb_assoc.
Qed.

Lemma pretty_N_go_no_underscore x s :
  occurs "_" (pretty_N_go x s) = occurs "_" s.
Proof.
  revert s. induction (N.lt_wf_0 x) as [x _ IH]; intros s.
  assert (x = 0 ∨ 0 < x)%N as [->|Hpos] by lia.
  - by rewrite pretty_N_go_0.
  - rewrite pretty_N_go_step by done.
    rewrite IH by (by apply N.div_lt). simpl.
    unfold pretty_N_char. by repeat case_match.
Qed.

Lemma pretty_N_no_underscore (x : N) : occurs "_" (pretty x) = false.
Proof.
  unfold pretty, pretty_N. case_decide; [done|].
  by rewrite pretty_N_go_no_underscore.
Qed.

Lemma pretty_Z_no_underscore (z : Z) : occurs "_" (pretty z) = false.
Proof.
  unfold pretty, pretty_Z. destruct z as [|p|p]; [done|..].
  - apply pretty_N_no_underscore.
  - rewrite occurs_app. simpl. apply pretty_N_no_underscore.
Qed.

(** A text is cut in one way only at its first underscore. *)
Lemma cut_at_underscore s1 s2 r1 r2 :
  occurs "_" s1 = false → occurs "_" s2 = false →
  s1 +:+ String "_" r1 = s2 +:+ String "_" r2 → s1 = s2 ∧ r1 = r2.
Proof.
  revert s2. induction s1 as [|c1 s1 IH]; intros [|c2 s2] H1 H2 Heq.
  - by injection Heq.
  - exfalso. injection Heq as Hc _. simpl in H2.
    rewrite <-Hc in H2. by rewrite bool_decide_eq_true_2 in H2.
  - exfalso. injection Heq as Hc _. simpl in H1.
    rewrite Hc in H1. by rewrite bool_decide_eq_true_2 in H1.
  - injection Heq as -> Heq. simpl in H1, H2.
    apply orb_false_iff in H1 as [_ H1]. apply orb_false_iff in H2 as [_ H2].
    destruct (IH s2 H1 H2 Heq) as [-> ->]. done.
Qed.

Lemma generateId_inj t r t' r' :
  app.generateId t r = app.generateId t' r' ↔ t = t' ∧ r = r'.
Proof.
  split; [|by intros [-> ->]].
  unfold app.generateId. intros Heq.
  apply (inj (String.app "entry_")) in Heq.
  apply cut_at_underscore in Heq as [Ht ->];
    [|apply pretty_Z_no_underscore..].
  by apply (inj pretty) in Ht.
Qed.

(** ** submit *)

Lemma getLocalEntries_submit dom net i w :
  storage.getLocalEntries (app.submit dom net i w)
  = storage.getLocalEntries (storage.save dom net (app.new_entry i w) w).2.
Proof.
  unfold app.submit. destruct (storage.save _ _ _ _) as [result w']. simpl.
  unfold storage.getLocalEntries, app.clearProgress. simpl.
  by rewrite ls_entries_showScreen.
Qed.

Lemma currentScreen_submit dom net i w :
  dom "screen-done" = true →
  currentScreen (app.submit dom net i w) = "screen-done".
Proof.
  intros Hdone. unfold app.submit. destruct (storage.save _ _ _ _) as [result w'].
  unfold app.clearProgress. simpl. by apply currentScreen_showScreen.
Qed.

Lemma ids_submit dom net i w :
  e_id <$> storage.getLocalEntries (app.submit dom net i w)
  = (e_id <$> storage.getLocalEntries w)
    ++ [app.generateId (app.idTime i) (app.idRandom i)].
Proof.
  rewrite getLocalEntries_submit.
  destruct (save_store dom net (app.new_entry i w) w) as (Hsame & _).
  by rewrite (same_but_synced_ids _ _ Hsame), fmap_app.
Qed.

(** ** C9: identifiers of submitted entries *)

(** X26.  The identifier submit() gives an Entry is entry_ + clock
    reading + _ + random suffix, added at the end of the stored
    identifiers.  It determines the pair (clock reading, suffix) it was
    built from, so two identifiers are equal only if built from the same
    pair; when the stored identifiers are unique, they are still unique
    after the submission exactly if the new identifier was not stored. *)
Theorem identifier_from_clock_and_random
    (dom : string → bool) (net : nat → settled)
    (i : app.submit_inputs) (w : world) :
  let before_ids := e_id <$> storage.getLocalEntries w in
  let after_ids := e_id <$> storage.getLocalEntries (app.submit dom net i w) in
  let new_id := app.generateId (app.idTime i) (app.idRandom i) in
  after_ids = before_ids ++ [new_id] ∧
  (∀ t r, app.generateId t r = new_id ↔ t = app.idTime i ∧ r = app.idRandom i) ∧
  (NoDup before_ids → (NoDup after_ids ↔ new_id ∉ before_ids)).
Proof.
  intros before_ids after_ids new_id.
  assert (Hids : after_ids = before_ids ++ [new_id]) by apply ids_submit.
  split; [done|]. split.
  - intros t r. apply generateId_inj.
  - intros Hnd. rewrite Hids, NoDup_app. split.
    + intros (_ & Hdisj & _) Hin. apply (Hdisj _ Hin).
      by apply list_elem_of_singleton.
    + intros Hfresh. split_and!; [done| |apply NoDup_singleton].
      intros x Hx ->%list_elem_of_singleton. done.
Qed.

Lemma identifier_from_clock_and_random_witness :
  NoDup (e_id <$> storage.getLocalEntries
                    (app.submit every_element always_fulfilled later_inputs
                       (app.submit every_element always_fulfilled sample_inputs
                          initial_world))).
Proof.
  apply (identifier_from_clock_and_random every_element always_fulfilled
           later_inputs
           (app.submit every_element always_fulfilled sample_inputs initial_world)).
  - apply (bool_decide_unpack _). vm_compute. exact I.
  - apply (bool_decide_unpack _). vm_compute. exact I.
Defined.

(** Two submissions that read the same clock value and draw the same
    suffix store two entries under one identifier. *)
Lemma colliding_submissions :
  let w := app.submit every_element always_fulfilled sample_inputs initial_world in
  e_id <$> storage.getLocalEntries w = ["entry_1762164061500_k3v9x0q2m"] ∧
  e_id (app.new_entry colliding_inputs w) = "entry_1762164061500_k3v9x0q2m" ∧
  e_id <$> storage.getLocalEntries
             (app.submit every_element always_fulfilled colliding_inputs w)
  = ["entry_1762164061500_k3v9x0q2m"; "entry_1762164061500_k3v9x0q2m"].
Proof. vm_compute. done. Qed.

(** Nothing compares a new identifier with the stored ones. *)
Lemma identifier_can_repeat :
  ¬ (∀ (i : app.submit_inputs) (w : world),
       e_id (app.new_entry i w) ∉ e_id <$> storage.getLocalEntries w).
Proof.
  intros H.
  apply (H colliding_inputs
           (app.submit every_element always_fulfilled sample_inputs initial_world)).
  destruct colliding_submissions as (-> & -> & _).
  by apply list_elem_of_singleton.
Qed.

(** C9: what the code does at the failing input.  A second submit()
    that reads the clock value and draws the random suffix of the first
    gives its Entry the identifier of the Entry already stored:
    generateId, documented as generating a unique identifier, never
    looks at the store.  The claim says the new identifier is distinct
    from all stored ones. *)
Theorem C9_colliding_submissions_share_an_id :
  let first :=
    app.submit every_element always_fulfilled sample_inputs initial_world in
  let second := app.submit every_element always_fulfilled colliding_inputs first in
  app.idTime colliding_inputs = app.idTime sample_inputs ∧
  app.idRandom colliding_inputs = app.idRandom sample_inputs ∧
  e_id <$> storage.getLocalEntries first = ["entry_1762164061500_k3v9x0q2m"] ∧
  e_id (app.new_entry colliding_inputs first) = "entry_1762164061500_k3v9x0q2m" ∧
  e_id <$> storage.getLocalEntries second
  = ["entry_1762164061500_k3v9x0q2m"; "entry_1762164061500_k3v9x0q2m"] ∧
  ¬ NoDup (e_id <$> storage.getLocalEntries second).
Proof.
  split_and!; try (vm_compute; reflexivity).
  apply (bool_decide_unpack _). vm_compute. exact I.
Qed.

(** ** C3: where submit can be called *)

(** The store and the screen after [submit] on the second screen. *)
Lemma submit_on_q1 :
  let w := app.submit every_element always_fulfilled sample_inputs at_q1 in
  currentScreen at_q1 = "screen-q1" ∧
  storage.getLocalEntries at_q1 = [] ∧
  e_id <$> storage.getLocalEntries w = ["entry_1762164061500_k3v9x0q2m"] ∧
  currentScreen w = "screen-done".
Proof. vm_compute. done. Qed.

(** C3, as stated, fails: [submit] does not look at the current screen. *)
Lemma C3_submit_is_not_guarded :
  ¬ (∀ (dom : string → bool) (net : nat → settled)
       (i : app.submit_inputs) (w : world),
       currentScreen w ≠ "screen-q5" →
       storage.getLocalEntries (app.submit dom net i w)
         = storage.getLocalEntries w ∧
       currentScreen (app.submit dom net i w) = currentScreen w).
Proof.
  intros H.
  destruct (H every_element always_fulfilled sample_inputs at_q1) as [Hstore _].
  { vm_compute. discriminate. }
  destruct submit_on_q1 as (_ & Hbefore & Hafter & _).
  rewrite Hstore, Hbefore in Hafter. discriminate Hafter.
Qed.

(** C3, as amended.  The guard is in the Enter-key handler: while the
    current screen is any other than q5 a key press is a no-op (no Entry
    is created, the store and the screen are unchanged), and on q5 the
    Enter key submits the free response.  submit() itself has no guard:
    called on any screen it appends one Entry to the store and, the done
    screen being in the page, shows done. *)
Theorem C3_submit_guarded_by_enter_handler
    (dom : string → bool) (net : nat → settled)
    (key text : string) (i : app.submit_inputs) (w : world) :
  currentScreen w ≠ "screen-q5" →
  app.keydown dom net key text i w = Returns w ∧
  (∀ w5, currentScreen w5 = "screen-q5" →
     app.keydown dom net "Enter" text i w5
     = app.submitFreeResponse dom net text i w5) ∧
  length (storage.getLocalEntries (app.submit dom net i w))
    = S (length (storage.getLocalEntries w)) ∧
  (dom "screen-done" = true →
     currentScreen (app.submit dom net i w) = "screen-done").
Proof.
  intros Hscreen. split_and!.
  - unfold app.keydown.
    by rewrite (bool_decide_eq_false_2 (currentScreen w = "screen-q5")),
      andb_false_r.
  - intros w5 H5. unfold app.keydown. by rewrite H5.
  - rewrite getLocalEntries_submit.
    destruct (save_store dom net (app.new_entry i w) w) as (Hsame & _).
    apply Forall2_length in Hsame. rewrite <-Hsame, length_app. simpl. lia.
  - apply currentScreen_submit.
Qed.

Lemma C3_submit_guarded_by_enter_handler_witness :
  currentScreen at_q1 ≠ "screen-q5" ∧
  app.keydown every_element always_fulfilled "Enter" "fine" sample_inputs at_q1
  = Returns at_q1.
Proof.
  assert (H : currentScreen at_q1 ≠ "screen-q5") by discriminate.
  split; [exact H|].
  apply (C3_submit_guarded_by_enter_handler every_element always_fulfilled
           "Enter" "fine" sample_inputs at_q1 H).
Defined.

(** ** C6: the CSV export *)

Lemma join_headers : join "," storage.csv_headers = header_line.
Proof. reflexivity. Qed.

(** The export of the store [single_store]. *)
Lemma export_of_single_store :
  ∃ row,
    storage.exportCSV "2025-11-04T08:00:00.000Z" single_store
    = Returns (emit (Download (header_line +:+ storage.newline +:+ row)
                       "carmel-checkin-2025-11-04.csv" "text/csv")
                 single_store).
Proof. eexists. vm_compute. reflexivity. Qed.

(** C6, as stated, fails: the second column is headed Time, not
    Timestamp. *)
Lemma C6_header_says_time :
  ¬ (∀ (iso : string) (e : entry) (w : world),
       storage.getLocalEntries w = [e] →
       ∃ row filename,
         head (log (world_of (storage.exportCSV iso w)))
         = Some (Download (claimed_header +:+ storage.newline +:+ row)
                   filename "text/csv")).
Proof.
  intros H.
  destruct (H "2025-11-04T08:00:00.000Z" answered_entry single_store eq_refl)
    as (row & filename & Heq).
  destruct export_of_single_store as (row' & Hexport).
  rewrite Hexport in Heq. simpl in Heq.
  injection Heq as Hcontent _. vm_compute in Hcontent. discriminate Hcontent.
Qed.

(** C6, as amended.  exportCSV on an empty Local Entry Store produces no
    file (only an alert); on a store holding exactly one Entry, whose
    note is a string, it produces one file: the header line
    Date,Time,Overall Day (1-5),Academic Focus (1-5),Social
    Interactions,Dysregulation Count,Coping Strategy Used,Notes,Synced,
    a line break, and one comma-joined data line in that field order, in
    which only the note is quoted, each quotation mark in it doubled. *)
Theorem C6_exportCSV_header_and_row (iso : string) (w : world) :
  (storage.getLocalEntries w = [] →
     storage.exportCSV iso w = Returns (emit (Alert "No entries to export") w)) ∧
  (∀ e notes,
     storage.getLocalEntries w = [e] →
     get (e_responses e) "free_response" = JStr notes →
     storage.exportCSV iso w
     = Returns (emit (Download
                        (header_line +:+ storage.newline +:+ data_line e notes)
                        ("carmel-checkin-" +:+ storage.getDateString iso +:+ ".csv")
                        "text/csv") w)).
Proof.
  split.
  - intros Hempty. unfold storage.exportCSV. by rewrite Hempty.
  - intros e notes Hone Hnotes. unfold storage.exportCSV. rewrite Hone. simpl.
    unfold storage.csv_row, storage.quoted_notes. rewrite Hnotes. simpl.
    assert (Hq : (if negb (bool_decide (notes = "")) then JStr notes else JStr "")
                 = JStr notes).
    { case_bool_decide as Hn; [by rewrite Hn|done]. }
    rewrite Hq. reflexivity.
Qed.

Lemma C6_exportCSV_header_and_row_witness :
  storage.getLocalEntries single_store = [answered_entry] ∧
  storage.exportCSV "2025-11-04T08:00:00.000Z" single_store
  = Returns (emit (Download
                     (header_line +:+ storage.newline +:+
                      data_line answered_entry
                        ("said " +:+ String dquote "hi" +:+ String dquote ", left"))
                     ("carmel-checkin-" +:+
                      storage.getDateString "2025-11-04T08:00:00.000Z" +:+ ".csv")
                     "text/csv") single_store).
Proof.
  split; [reflexivity|].
  apply (C6_exportCSV_header_and_row "2025-11-04T08:00:00.000Z" single_store);
    reflexivity.
Defined.

(** The data line of [answered_entry]: the note is quoted and its
    quotation marks doubled; the labels, commas included, are not. *)
Lemma data_line_of_answered_entry :
  data_line answered_entry
    ("said " +:+ String dquote "hi" +:+ String dquote ", left")
  = "2025-11-03,2025-11-03T10:01:01.501Z,4,3,Yes, at least one,2,Yes, and it helped,"
    +:+ String dquote "said " +:+ String dquote (String dquote "hi")
    +:+ String dquote (String dquote ", left") +:+ String dquote ",No".
Proof. vm_compute. reflexivity. Qed.

(** ** C7: resuming a saved session *)

Lemma log_not_extended (x : effect) (l : list effect) : l ≠ x :: l.
Proof.
  intros H. apply (f_equal length) in H. simpl in H. lia.
Qed.

Lemma log_showScreen dom screenId w : log (app.showScreen dom screenId w) = log w.
Proof. unfold app.showScreen. by destruct (dom screenId). Qed.

Lemma started_within_last_hour_spec now startTime :
  app.started_within_last_hour now startTime = true ↔
  ∃ t, startTime = Some t ∧ t ≠ 0 ∧ now - t < 3600000.
Proof.
  unfold app.started_within_last_hour. destruct startTime as [t|].
  - rewrite andb_true_iff, !bool_decide_eq_true. split.
    + intros [??]. eauto.
    + intros (t' & [= <-] & ? & ?). done.
  - split; [done|]. intros (t & ? & _). done.
Qed.

(** C7, as amended.  On load, a saved in-progress session is offered for
    resume exactly when its start timestamp is set, not zero, and less
    than one hour old (now - start < 3600000 ms) and its saved screen is
    set and is not welcome.  A session whose start timestamp is one hour
    or more in the past is silently discarded (the item is removed, no
    dialog, the state is untouched).  An offered session is resumed at
    its saved screen when the user accepts and discarded when the user
    declines. *)
Theorem C7_resume_within_the_hour
    (dom : string → bool) (now : Z) (answer : bool) (w : world) (p : progress) :
  ls_progress w = Some (Parsed p) →
  (offers_resume dom now answer w ↔
     ∃ t, p_startTime p = Some t ∧ t ≠ 0 ∧ now - t < 3600000 ∧
          p_currentScreen p ≠ "" ∧ p_currentScreen p ≠ "screen-welcome") ∧
  (∀ t, p_startTime p = Some t → 3600000 ≤ now - t →
     app.loadProgress dom now answer w = app.clearProgress w) ∧
  (offers_resume dom now answer w → answer = true →
     dom (p_currentScreen p) = true →
     currentScreen (app.loadProgress dom now answer w) = p_currentScreen p ∧
     responses (app.loadProgress dom now answer w) = p_responses p) ∧
  (offers_resume dom now answer w → answer = false →
     ls_progress (app.loadProgress dom now answer w) = None).
Proof.
  intros Hp. unfold offers_resume, app.loadProgress. rewrite Hp.
  destruct (app.started_within_last_hour now (p_startTime p)) eqn:Hstart.
  - apply started_within_last_hour_spec in Hstart as (t & Ht & Hnz & Hlt).
    case_bool_decide as Hscreen.
    + destruct Hscreen as [Hset Hnot]. split_and!.
      * split; [intros _; by exists t|intros _].
        destruct answer; simpl; by rewrite ?log_showScreen.
      * intros t' Ht' Hold. rewrite Ht in Ht'. injection Ht' as <-. lia.
      * intros _ -> Hdom. simpl.
        by rewrite currentScreen_showScreen, responses_showScreen.
      * by intros _ ->.
    + split_and!.
      * split; [intros H; by destruct (log_not_extended _ _ H)|].
        intros (_ & _ & _ & _ & Hset & Hnot). destruct Hscreen. done.
      * intros t' Ht' Hold. rewrite Ht in Ht'. injection Ht' as <-. lia.
      * intros H. by destruct (log_not_extended _ _ H).
      * intros H. by destruct (log_not_extended _ _ H).
  - split_and!.
    + split; [intros H; by destruct (log_not_extended _ _ H)|].
      intros (t & Ht & Hnz & Hlt & _).
      assert (app.started_within_last_hour now (p_startTime p) = true)
        by (apply started_within_last_hour_spec; eauto).
      congruence.
    + done.
    + intros H. by destruct (log_not_extended _ _ H).
    + intros H. by destruct (log_not_extended _ _ H).
Qed.

Lemma C7_resume_within_the_hour_witness :
  offers_resume every_element (load_time - 1) true hour_old_session ∧
  app.loadProgress every_element load_time true hour_old_session
  = app.clearProgress hour_old_session.
Proof.
  split.
  - apply (C7_resume_within_the_hour every_element (load_time - 1) true
             hour_old_session _ eq_refl).
    exists 1762164000000. unfold load_time. simpl.
    split_and!; [reflexivity|lia|lia|discriminate|discriminate].
  - destruct (C7_resume_within_the_hour every_element load_time true
                hour_old_session _ eq_refl) as (_ & Hold & _).
    apply (Hold 1762164000000); [reflexivity|]. unfold load_time. lia.
Defined.

(** The session of [hour_old_session], loaded when exactly one hour old:
    no dialog, the item removed, the welcome screen kept. *)
Lemma load_at_one_hour :
  let w := app.loadProgress every_element load_time true hour_old_session in
  load_time - 1762164000000 = 3600000 ∧
  log w = [] ∧ ls_progress w = None ∧ currentScreen w = "screen-welcome".
Proof. vm_compute. done. Qed.

(** C7, as stated, fails: a session exactly one hour old is at most one
    hour old, and it is discarded without an offer. *)
Lemma C7_exactly_one_hour_is_discarded :
  ¬ (∀ (dom : string → bool) (now : Z) (answer : bool) (w : world)
       (p : progress) (t : Z),
       ls_progress w = Some (Parsed p) →
       p_startTime p = Some t → 0 < t → now - t ≤ 3600000 →
       p_currentScreen p ≠ "" → p_currentScreen p ≠ "screen-welcome" →
       offers_resume dom now answer w).
Proof.
  intros H.
  specialize (H every_element load_time true hour_old_session _ 1762164000000
                eq_refl eq_refl).
  unfold offers_resume in H.
  destruct load_at_one_hour as (_ & Hlog & _).
  rewrite Hlog in H. discriminate H; unfold load_time; (lia || discriminate).
Qed.

(** ** C8: malformed stored text *)

(** A malformed session is discarded and the load returns: the state is
    the one an absent session leaves, the item is removed. *)
Lemma loadProgress_malformed dom now answer w raw :
  ls_progress w = Some (Malformed raw) → raw ≠ "" →
  app.loadProgress dom now answer w = app.clearProgress w.
Proof.
  intros Hp Hraw. unfold app.loadProgress. rewrite Hp.
  by rewrite decide_False.
Qed.

Lemma loadProgress_absent dom now answer w :
  ls_progress w = None → app.loadProgress dom now answer w = w.
Proof. intros Hp. unfold app.loadProgress. by rewrite Hp. Qed.

(** A malformed configuration makes [storage.init] stop with the
    [SyntaxError] of [JSON.parse], whatever the page holds. *)
Lemma init_malformed dom w raw :
  ls_config w = Some (Malformed raw) → raw ≠ "" →
  storage.init dom w = Throws "SyntaxError" w.
Proof.
  intros Hc Hraw. unfold storage.init. rewrite Hc. by rewrite decide_False.
Qed.

(** C8: what the code does at the failing input.  With the stored
    configuration text [{sheetsUrl:] the gateway's [init] ends in an
    uncaught [SyntaxError], where an absent configuration lets it return;
    the malformed session next to it is discarded without an error. *)
Theorem C8_init_throws_on_malformed_config :
  storage.init every_element malformed_config
    = Throws "SyntaxError" malformed_config ∧
  storage.init every_element initial_world
    = Returns (emit (LocalCount 0) initial_world) ∧
  app.loadProgress every_element load_time true malformed_session
    = initial_world.
Proof. split_and!; reflexivity. Qed.

(** ** C10: how the store changes *)

Lemma getLocalEntries_updateLocalCount dom w :
  storage.getLocalEntries (storage.updateLocalCount dom w)
  = storage.getLocalEntries w.
Proof. unfold storage.updateLocalCount. by destruct (dom _). Qed.

Lemma syncLoop_flips net pending nsynced nfailed w :
  rtc sync_flip (storage.getLocalEntries w)
    (storage.getLocalEntries (storage.syncLoop net pending nsynced nfailed w).2).
Proof.
  revert nsynced nfailed w.
  induction pending as [|e rest IH]; intros nsynced nfailed w; simpl; [done|].
  unfold storage.sendToSheets, storage.fetch.
  destruct (decide (sheetsUrl w = "")); [|destruct (net (fetches w))].
  - etrans; [|apply IH]. by rewrite getLocalEntries_emit.
  - etrans; [|apply IH].
    rewrite getLocalEntries_markAsSynced, getLocalEntries_set_fetches.
    destruct (mark_first_flip (e_id e) (storage.getLocalEntries w)) as [-> | H];
      [done|by apply rtc_once].
  - etrans; [|apply IH].
    by rewrite getLocalEntries_emit, getLocalEntries_set_fetches.
Qed.

Lemma syncAll_flips dom net w :
  rtc sync_flip (storage.getLocalEntries w)
    (storage.getLocalEntries (storage.syncAll dom net w)).
Proof.
  unfold storage.syncAll.
  destruct (decide (sheetsUrl w = "")); [by rewrite getLocalEntries_showStatus|].
  destruct (decide (length _ = 0%nat)); [by rewrite getLocalEntries_showStatus|].
  match goal with
  | |- context [storage.syncLoop net ?pending 0 0 ?w0] =>
      pose proof (syncLoop_flips net pending 0 0 w0) as Hloop;
      destruct (storage.syncLoop net pending 0 0 w0) as [[nsynced nfailed] w1]
  end.
  rewrite getLocalEntries_showStatus in Hloop. simpl in Hloop.
  destruct (decide (nfailed = 0%nat)); by rewrite getLocalEntries_showStatus.
Qed.

Lemma kept_in_place_prefix before appended after :
  Forall2 same_but_synced (before ++ appended) after →
  kept_in_place before after.
Proof.
  intros H i e Hi.
  apply (same_but_synced_kept _ _ H). by apply lookup_app_l_Some.
Qed.

Lemma Forall2_same_refl l : Forall2 same_but_synced l l.
Proof.
  apply Forall_Forall2_diag, Forall_forall. intros; apply same_but_synced_refl.
Qed.

(** C10.  Every gateway operation leaves the Local Entry Store as it
    was, or appends one Entry at its end, or raises the sync flag of the
    entry found by identifier lookup (all its other fields and all other
    entries unchanged), or clears the store wholesale (clearLocal with
    the user's confirmation); save does the first and possibly the
    second, syncAll repeats the second.  Short of the wholesale clear no
    operation removes an entry or edits a field other than the sync
    flag: every entry stays at its index with at most its flag raised. *)
Theorem C10_store_is_append_or_flag_or_clear
    (dom : string → bool) (net : nat → settled)
    (stringify_pretty : list entry → string) (op : gateway_op) (w : world) :
  let before := storage.getLocalEntries w in
  let after := storage.getLocalEntries (run_op dom net stringify_pretty op w) in
  store_effect op before after ∧
  (op = OpClearLocal true ∧ after = [] ∨ kept_in_place before after).
Proof.
  intros before after. unfold after, before.
  destruct op as [|value| |e|e|entryId| |iso|iso|answer| |elementId message type];
    simpl.
  - (* init *)
    assert (H : storage.getLocalEntries (world_of (storage.init dom w))
                = storage.getLocalEntries w).
    { unfold storage.init.
      destruct (ls_config w) as [[raw|url]|]; [destruct (decide (raw = ""))|..];
        simpl; rewrite ?getLocalEntries_updateLocalCount; try done.
      by destruct (dom "sheets-url"). }
    rewrite H. split; [done|right]. apply same_but_synced_kept, Forall2_same_refl.
  - (* saveConfig *)
    assert (H : storage.getLocalEntries (storage.saveConfig dom value w)
                = storage.getLocalEntries w).
    { unfold storage.saveConfig.
      destruct (dom "sheets-url"); by rewrite ?getLocalEntries_showStatus. }
    rewrite H. split; [done|right]. apply same_but_synced_kept, Forall2_same_refl.
  - (* testConnection *)
    assert (H : storage.getLocalEntries (storage.testConnection dom net w)
                = storage.getLocalEntries w).
    { unfold storage.testConnection, storage.fetch.
      destruct (decide (sheetsUrl w = "")); [by rewrite getLocalEntries_showStatus|].
      simpl. destruct (net _);
        by rewrite getLocalEntries_showStatus, getLocalEntries_set_fetches,
          getLocalEntries_showStatus. }
    rewrite H. split; [done|right]. apply same_but_synced_kept, Forall2_same_refl.
  - (* saveLocal *)
    rewrite getLocalEntries_saveLocal. split; [done|right].
    apply (kept_in_place_prefix _ [e]), Forall2_same_refl.
  - (* save *)
    destruct (save_store dom net e w) as (Hsame & Hunsynced & Hsynced).
    split.
    + destruct (storage.synced (storage.save dom net e w).1) eqn:Hs.
      * rewrite (Hsynced eq_refl).
        destruct (mark_first_flip (e_id e) (storage.getLocalEntries w ++ [e]))
          as [-> | H]; [by left|by right].
      * left. by apply Hunsynced.
    + right. by apply (kept_in_place_prefix _ [e]).
  - (* markAsSynced *)
    rewrite getLocalEntries_markAsSynced. split.
    + destruct (mark_first_flip entryId (storage.getLocalEntries w)) as [-> | H];
        [by left|by right].
    + right. apply same_but_synced_kept, mark_first_same.
  - (* syncAll *)
    pose proof (syncAll_flips dom net w) as H. split; [done|right].
    by apply same_but_synced_kept, sync_flips_same.
  - (* exportCSV *)
    assert (H : storage.getLocalEntries (world_of (storage.exportCSV iso w))
                = storage.getLocalEntries w).
    { unfold storage.exportCSV. destruct (decide _); [done|].
      by destruct (mapM _ _). }
    rewrite H. split; [done|right]. apply same_but_synced_kept, Forall2_same_refl.
  - (* exportJSON *)
    assert (H : storage.getLocalEntries (storage.exportJSON stringify_pretty iso w)
                = storage.getLocalEntries w).
    { unfold storage.exportJSON. by destruct (decide _). }
    rewrite H. split; [done|right]. apply same_but_synced_kept, Forall2_same_refl.
  - (* clearLocal *)
    unfold storage.clearLocal. destruct answer; simpl.
    + rewrite getLocalEntries_showStatus, getLocalEntries_updateLocalCount.
      split; [done|by left].
    + split; [done|right]. apply same_but_synced_kept, Forall2_same_refl.
  - (* updateLocalCount *)
    rewrite getLocalEntries_updateLocalCount. split; [done|right].
    apply same_but_synced_kept, Forall2_same_refl.
  - (* showStatus *)
    rewrite getLocalEntries_showStatus. split; [done|right].
    apply same_but_synced_kept, Forall2_same_refl.
Qed.

(** * Further properties of the controller *)

(** ** Saved progress across page loads *)

Lemma startTime_showScreen dom screenId w :
  startTime (app.showScreen dom screenId w) = startTime w.
Proof. unfold app.showScreen. by destruct (dom screenId). Qed.

Lemma ls_progress_showScreen dom screenId w :
  dom screenId = true →
  ls_progress (app.showScreen dom screenId w)
  = Some (Parsed {| p_currentScreen := screenId;
                    p_startTime := startTime w;
                    p_responses := responses w |}).
Proof. intros H. unfold app.showScreen. by rewrite H. Qed.

(** X1.  Round trip of the saved session: what showScreen saves, a page
    load within the hour restores when the user accepts the offer - the
    screen shown, the start time and the answers. *)
Theorem progress_round_trip
    (dom : string → bool) (screenId : string) (w : world) (t now : Z) :
  dom screenId = true →
  screenId ≠ "" → screenId ≠ "screen-welcome" →
  startTime w = Some t → t ≠ 0 → now - t < 3600000 →
  let loaded := app.loadProgress dom now true
                  (reload (app.showScreen dom screenId w)) in
  offers_resume dom now true (reload (app.showScreen dom screenId w)) ∧
  currentScreen loaded = screenId ∧
  startTime loaded = startTime w ∧
  responses loaded = responses w ∧
  ls_progress loaded = ls_progress (app.showScreen dom screenId w).
Proof.
  intros Hdom Hset Hnot Ht Hnz Hlt loaded.
  unfold loaded, offers_resume, app.loadProgress, reload. simpl.
  rewrite ls_progress_showScreen by done. simpl. rewrite Ht. simpl.
  rewrite (bool_decide_eq_true_2 (t ≠ 0)), (bool_decide_eq_true_2 (now - t < _))
    by done. simpl.
  rewrite bool_decide_eq_true_2 by done.
  rewrite log_showScreen, currentScreen_showScreen, startTime_showScreen,
    responses_showScreen, ls_progress_showScreen by done. simpl.
  done.
Qed.

Lemma progress_round_trip_witness :
  currentScreen
    (app.loadProgress every_element (load_time - 1) true
       (reload (app.showScreen every_element "screen-q4" at_q4)))
  = "screen-q4" ∧
  responses
    (app.loadProgress every_element (load_time - 1) true
       (reload (app.showScreen every_element "screen-q4" at_q4)))
  = responses at_q4.
Proof.
  destruct (progress_round_trip every_element "screen-q4" at_q4 1762164000000
              (load_time - 1)) as (_ & Hscreen & _ & Hresponses & _);
    [reflexivity | discriminate | discriminate | reflexivity | lia
    | unfold load_time; lia | ].
  split; [exact Hscreen | exact Hresponses].
Defined.

(** X2.  After reset() on a page that holds the welcome screen the saved
    session has no start time: the next page load discards it without a
    dialog and starts from the initial state. *)
Theorem reset_leaves_nothing_to_resume
    (dom : string → bool) (now : Z) (answer : bool) (w : world) :
  dom "screen-welcome" = true →
  let loaded := app.loadProgress dom now answer (reload (app.reset dom w)) in
  loaded = app.clearProgress (reload (app.reset dom w)) ∧
  currentScreen loaded = "screen-welcome" ∧
  startTime loaded = None ∧
  responses loaded = empty_responses ∧
  ls_progress loaded = None.
Proof.
  intros Hdom loaded. unfold loaded, app.loadProgress, reload, app.reset. simpl.
  by rewrite ls_progress_showScreen by done.
Qed.

Lemma reset_leaves_nothing_to_resume_witness :
  ls_progress
    (app.loadProgress every_element load_time true
       (reload (app.reset every_element at_q4))) = None.
Proof.
  apply (reset_leaves_nothing_to_resume every_element load_time true at_q4).
  reflexivity.
Defined.

(** X3.  submit() ends by removing the saved session, whatever the page
    and the network do: the next page load restores and offers nothing. *)
Theorem submit_leaves_nothing_to_resume
    (dom dom' : string → bool) (net : nat → settled) (i : app.submit_inputs)
    (now : Z) (answer : bool) (w : world) :
  ls_progress (app.submit dom net i w) = None ∧
  app.loadProgress dom' now answer (reload (app.submit dom net i w))
  = reload (app.submit dom net i w).
Proof.
  assert (H : ls_progress (app.submit dom net i w) = None).
  { unfold app.submit. by destruct (storage.save _ _ _ _). }
  split; [done|]. unfold app.loadProgress, reload. simpl. by rewrite H.
Qed.

(** X4.  Declining the resume offer removes the stored session but
    leaves the state restored from it: the controller's current screen
    is the saved one although it was never shown, so after declining a
    session saved on q5 the Enter key still submits. *)
Theorem declined_session_stays_in_state
    (dom : string → bool) (net : nat → settled) (now : Z) (w : world)
    (p : progress) (text : string) (i : app.submit_inputs) :
  ls_progress w = Some (Parsed p) →
  offers_resume dom now false w →
  let declined := app.loadProgress dom now false w in
  ls_progress declined = None ∧
  currentScreen declined = p_currentScreen p ∧
  startTime declined = p_startTime p ∧
  responses declined = p_responses p ∧
  (p_currentScreen p = "screen-q5" →
     app.keydown dom net "Enter" text i declined
     = app.submitFreeResponse dom net text i declined).
Proof.
  intros Hp Hoffer declined.
  assert (Hdeclined : declined
            = app.clearProgress
                (emit (Confirm "You have an unfinished check-in. Would you like to continue?")
                   (app.restore p w))).
  { unfold declined. revert Hoffer. unfold offers_resume, app.loadProgress.
    rewrite Hp.
    destruct (app.started_within_last_hour now (p_startTime p));
      [case_bool_decide as Hscreen|]; intros Hlog; try done;
      by destruct (log_not_extended _ _ Hlog). }
  rewrite Hdeclined. simpl. split_and!; try done.
  intros H5. unfold app.keydown. simpl. by rewrite H5.
Qed.

Lemma declined_session_stays_in_state_witness :
  currentScreen (app.loadProgress every_element (load_time - 1) false hour_old_session)
  = "screen-q3" ∧
  ls_progress (app.loadProgress every_element (load_time - 1) false hour_old_session)
  = None.
Proof.
  destruct (declined_session_stays_in_state every_element always_fulfilled
              (load_time - 1) hour_old_session _ "" sample_inputs eq_refl)
    as (Hgone & Hscreen & _); [reflexivity|].
  split; [exact Hscreen | exact Hgone].
Defined.

(** ** The entry built by submit *)

(** X5.  The completion time of a submitted entry is the elapsed time
    rounded to the nearest second, halves upwards: it is within half a
    second of (end - start) / 1000, a missing start time counting as 0. *)
Theorem completion_time_is_rounded (i : app.submit_inputs) (w : world) :
  let seconds := completion_time_seconds (e_metadata (app.new_entry i w)) in
  let elapsed := app.endTime i - default 0 (startTime w) in
  1000 * seconds - 500 ≤ elapsed < 1000 * seconds + 500.
Proof.
  intros seconds elapsed. unfold seconds, app.new_entry, app.completionTime.
  simpl. fold elapsed.
  pose proof (Z.div_mod (elapsed + 500) 1000).
  pose proof (Z.mod_pos_bound (elapsed + 500) 1000). lia.
Qed.

(** ** Navigation *)

(** X6.  goBack undoes goNext: from every screen of the flow but q5 and
    done - and but q4b while the count is 0, where Back from q5 skips to
    q4 - going forward and back shows the same screen again. *)
Theorem goBack_undoes_goNext
    (dom : string → bool) (w : world) (s : spec.screen) :
  (∀ s', dom (spec.screen_id s') = true) →
  currentScreen w = spec.screen_id s →
  s ≠ spec.q5 → s ≠ spec.done →
  ¬ (s = spec.q4b ∧ app.dysregulation_is_zero w = true) →
  currentScreen (app.goBack dom (app.goNext dom w)) = currentScreen w.
Proof.
  intros Hdom Hs H5 Hdone H4b.
  change (app.goBack dom (app.goNext dom w)) with (run_nav dom [Next; Back] w).
  rewrite (run_nav_follow dom [Next; Back] w s Hdom Hs), Hs.
  destruct (app.dysregulation_is_zero w); destruct s; simpl; try done.
  destruct H4b. done.
Qed.

Lemma goBack_undoes_goNext_witness :
  currentScreen (app.goBack every_element (app.goNext every_element at_q4))
  = currentScreen at_q4.
Proof.
  apply (goBack_undoes_goNext every_element at_q4 spec.q4);
    [reflexivity | reflexivity | discriminate | discriminate | ].
  intros [H _]. discriminate H.
Defined.

Lemma navigate_stuck dom n w :
  app.flow !! currentScreen w = None ∨ currentScreen w = "screen-done" →
  navigate dom n w = w.
Proof.
  intros Hstuck.
  assert (Hnext : app.flow !! currentScreen w ≫= app.next = None)
    by (destruct Hstuck as [-> | ->]; done).
  assert (Hprev : app.flow !! currentScreen w ≫= app.prev = None)
    by (destruct Hstuck as [-> | ->]; done).
  assert (H4 : bool_decide (currentScreen w = "screen-q4") = false).
  { apply bool_decide_eq_false. intros H. rewrite H in Hstuck.
    by destruct Hstuck. }
  assert (H5 : bool_decide (currentScreen w = "screen-q5") = false).
  { apply bool_decide_eq_false. intros H. rewrite H in Hstuck.
    by destruct Hstuck. }
  destruct n; simpl.
  - unfold app.goNext. by rewrite H4, Hnext.
  - unfold app.goBack. by rewrite H5, Hprev.
Qed.

(** X7.  done is terminal for navigation, and so is any screen
    identifier the flow table does not list: no sequence of
    goNext()/goBack() changes anything there, whatever the page holds. *)
Theorem navigation_stops_at_done
    (dom : string → bool) (ops : list nav) (w : world) :
  app.flow !! currentScreen w = None ∨ currentScreen w = "screen-done" →
  run_nav dom ops w = w.
Proof.
  intros Hstuck. induction ops as [|n ops IH]; [done|].
  simpl. by rewrite navigate_stuck.
Qed.

Lemma navigation_stops_at_done_witness :
  run_nav every_element [Back; Next; Back]
    (set_currentScreen "screen-done" at_q4)
  = set_currentScreen "screen-done" at_q4.
Proof.
  apply (navigation_stops_at_done every_element [Back; Next; Back]
           (set_currentScreen "screen-done" at_q4)).
  right. reflexivity.
Defined.

Lemma showScreen_cases dom screenId w :
  app.showScreen dom screenId w = w ∨
  app.showScreen dom screenId w
  = app.saveProgress (set_currentScreen screenId w).
Proof. unfold app.showScreen. destruct (dom screenId); auto. Qed.

Lemma same_but_flow_refl w : same_but_flow w w.
Proof. by repeat split. Qed.

Lemma same_but_flow_trans w1 w2 w3 :
  same_but_flow w1 w2 → same_but_flow w2 w3 → same_but_flow w1 w3.
Proof.
  intros (?&?&?&?&?&?&?&H12) (?&?&?&?&?&?&?&H23).
  repeat split; try congruence.
  intros field Hne. by rewrite H23, H12.
Qed.

Lemma same_but_flow_showScreen dom screenId w :
  same_but_flow w (app.showScreen dom screenId w).
Proof.
  destruct (showScreen_cases dom screenId w) as [-> | ->];
    by repeat split.
Qed.

Lemma same_but_flow_navigate dom n w : same_but_flow w (navigate dom n w).
Proof.
  destruct n; simpl.
  - unfold app.goNext.
    destruct (bool_decide _ && _);
      [|destruct (app.flow !! currentScreen w ≫= app.next)];
      try apply same_but_flow_showScreen; [|apply same_but_flow_refl].
    eapply same_but_flow_trans; [|apply same_but_flow_showScreen].
    repeat split; try done. intros field Hne. simpl.
    by rewrite lookup_insert_ne.
  - unfold app.goBack.
    destruct (bool_decide _ && _);
      [|destruct (app.flow !! currentScreen w ≫= app.prev)];
      try apply same_but_flow_showScreen. apply same_but_flow_refl.
Qed.

Lemma progress_is_current_showScreen dom screenId w :
  currentScreen (app.showScreen dom screenId w) = currentScreen w ∨
  progress_is_current (app.showScreen dom screenId w).
Proof.
  destruct (showScreen_cases dom screenId w) as [-> | ->]; [by left|by right].
Qed.

Lemma progress_is_current_navigate dom n w :
  currentScreen (navigate dom n w) = currentScreen w ∨
  progress_is_current (navigate dom n w).
Proof.
  destruct n; simpl.
  - unfold app.goNext.
    destruct (bool_decide _ && _);
      [|destruct (app.flow !! currentScreen w ≫= app.next); [|by left]];
      match goal with
      | |- context [app.showScreen dom ?s ?x] =>
          destruct (progress_is_current_showScreen dom s x) as [H | H];
            [left; by rewrite H | by right]
      end.
  - unfold app.goBack.
    destruct (bool_decide _ && _);
      [|destruct (app.flow !! currentScreen w ≫= app.prev); [|by left]];
      apply progress_is_current_showScreen.
Qed.

(** X8.  goNext() and goBack() touch nothing but the flow: the start
    time, the endpoint, the stored entries and configuration, the
    pending timers, the network and the effect log are as before, and so
    is every answer other than used_coping_strategy; and whenever the
    current screen changes, the session saved is the new state. *)
Theorem navigation_touches_only_the_flow
    (dom : string → bool) (ops : list nav) (w : world) :
  same_but_flow w (run_nav dom ops w) ∧
  ∀ n, currentScreen (navigate dom n w) ≠ currentScreen w →
       progress_is_current (navigate dom n w).
Proof.
  split.
  - revert w. induction ops as [|n ops IH]; intros w;
      [apply same_but_flow_refl|].
    simpl. eapply same_but_flow_trans; [apply same_but_flow_navigate|apply IH].
  - intros n Hmoved.
    by destruct (progress_is_current_navigate dom n w).
Qed.

Lemma timers_goNext dom w : timers (app.goNext dom w) = timers w.
Proof. apply (same_but_flow_navigate dom Next w). Qed.

Lemma select_present dom field value w :
  dom (currentScreen w) = true →
  world_of (app.select dom field value w)
  = set_timers (S (timers w))
      (set_responses (<[field := value]> (responses w)) w).
Proof. intros H. unfold app.select. simpl. by rewrite H. Qed.

Lemma timer_fires_pending dom n w :
  timers w = S n → app.timer_fires dom w = app.goNext dom (set_timers n w).
Proof. intros H. unfold app.timer_fires. by rewrite H. Qed.

(** X9.  Auto-advance timers are not tied to the screen they were armed
    on: two answers given on one screen arm two timers, and when both
    have run the controller is two screens further on, the screen in
    between passed without an answer. *)
Theorem two_answers_advance_two_screens
    (dom : string → bool) (w : world) (s : spec.screen)
    (field1 field2 : string) (value1 value2 : jsval) :
  (∀ s', dom (spec.screen_id s') = true) →
  currentScreen w = spec.screen_id s →
  let answered :=
    world_of (app.select dom field2 value2
                (world_of (app.select dom field1 value1 w))) in
  let after := app.timer_fires dom (app.timer_fires dom answered) in
  timers answered = S (S (timers w)) ∧
  timers after = timers w ∧
  currentScreen after =
  spec.screen_id
    (spec.follow spec.table_prev (app.dysregulation_is_zero answered)
       [Next; Next] s).
Proof.
  intros Hdom Hs answered after.
  assert (Hanswered : answered
    = set_timers (S (S (timers w)))
        (set_responses (<[field2 := value2]> (<[field1 := value1]> (responses w)))
           w)).
  { unfold answered. rewrite (select_present dom field1) by (rewrite Hs; apply Hdom).
    rewrite select_present by (simpl; rewrite Hs; apply Hdom). done. }
  split; [by rewrite Hanswered|].
  unfold after.
  rewrite (timer_fires_pending dom (S (timers w)) answered) by (by rewrite Hanswered).
  rewrite (timer_fires_pending dom (timers w)) by (by rewrite timers_goNext).
  split; [by rewrite timers_goNext|].
  match goal with
  | |- currentScreen (app.goNext dom (set_timers ?n (app.goNext dom ?x))) = _ =>
      pose proof (navigate_move dom Next x s Hdom) as H1;
      pose proof (navigate_move dom Next (set_timers n (app.goNext dom x))
                    (spec.move spec.table_prev (app.dysregulation_is_zero x) Next s)
                    Hdom) as H2;
      pose proof (dysregulation_is_zero_navigate dom Next x) as Hz
  end.
  simpl in H1, H2, Hz. rewrite H2.
  - unfold app.dysregulation_is_zero in *. simpl. simpl in Hz.
    rewrite Hz. by rewrite Hanswered.
  - rewrite H1; [done|]. by rewrite Hanswered.
Qed.

Lemma two_answers_advance_two_screens_witness :
  let answered :=
    world_of (app.select every_element "overall_day" (JNum 5)
                (world_of (app.select every_element "overall_day" (JNum 4) at_q1))) in
  currentScreen
    (app.timer_fires every_element (app.timer_fires every_element answered))
  = "screen-q3".
Proof.
  apply (two_answers_advance_two_screens every_element at_q1 spec.q1
           "overall_day" "overall_day" (JNum 4) (JNum 5));
    reflexivity.
Defined.

Lemma saveLocal_keeps dom e w :
  sheetsUrl (storage.saveLocal dom e w) = sheetsUrl w
  ∧ fetches (storage.saveLocal dom e w) = fetches w
  ∧ currentScreen (storage.saveLocal dom e w) = currentScreen w
  ∧ responses (storage.saveLocal dom e w) = responses w
  ∧ startTime (storage.saveLocal dom e w) = startTime w.
Proof.
  unfold storage.saveLocal, storage.updateLocalCount.
  by destruct (dom "local-count").
Qed.

Lemma submit_in_two_halves dom net i w :
  resumes dom net (submit_begins dom i w) = app.submit dom net i w.
Proof.
  unfold resumes, submit_begins, submit_settles, app.submit.
  rewrite save_unfold.
  destruct (saveLocal_keeps dom (app.new_entry i w) w) as (Hurl & Hf & _).
  rewrite Hurl, Hf. simpl.
  destruct (decide (sheetsUrl w = "")); simpl; [done|].
  by destruct (net (fetches w)).
Qed.

Lemma keydown_in_two_halves dom net key text i w :
  let s := keydown_begins dom key text i w in
  app.keydown dom net key text i w
  = match s.1 with
    | Returns w' => Returns (resumes dom net (w', s.2))
    | Throws error w' => Throws error w'
    end.
Proof.
  unfold keydown_begins, app.keydown, app.submitFreeResponse.
  destruct (_ && _); [|done]. destruct (dom "free-response"); [|done].
  rewrite <-submit_in_two_halves. by destruct (submit_begins _ _ _).
Qed.

Lemma submit_begins_pending dom i w :
  sheetsUrl w ≠ "" →
  let e := app.new_entry i w in
  let s := submit_begins dom i w in
  s.2 = Some {| sent := e; request := fetches w |} ∧
  currentScreen s.1 = currentScreen w ∧
  responses s.1 = responses w ∧
  startTime s.1 = startTime w ∧
  sheetsUrl s.1 = sheetsUrl w ∧
  fetches s.1 = S (fetches w) ∧
  storage.getLocalEntries s.1 = storage.getLocalEntries w ++ [e].
Proof.
  intros Hurl e s. unfold s, submit_begins.
  destruct (saveLocal_keeps dom e w) as (Hu & Hf & Hc & Hr & Ht). fold e.
  rewrite Hu, Hf, decide_False by done. simpl.
  rewrite getLocalEntries_set_fetches, getLocalEntries_saveLocal. done.
Qed.

(** X10.  Enter on q5, on a page that holds the textarea and the done
    screen, stores one entry at once.  With no endpoint configured the
    submission is over before any other event: the controller is on the
    done screen and a further Enter is ignored.  With an endpoint the
    request is on its way and the controller is still on q5: a second
    Enter before the request settles passes the guard of the listener
    and stores a second entry with a request of its own.  Once the
    request has settled, with nothing in between, the controller is on
    the done screen, the store holds one entry more than before, and a
    further Enter is ignored. *)
Theorem enter_is_ignored_once_the_request_settles
    (dom : string → bool) (net : nat → settled)
    (text text' : string) (i i' : app.submit_inputs) (w : world) :
  dom "free-response" = true →
  dom "screen-done" = true →
  currentScreen w = "screen-q5" →
  let first := keydown_begins dom "Enter" text i w in
  let pending := world_of first.1 in
  let e :=
    app.new_entry i
      (set_responses (<["free_response" := JStr (trim text)]> (responses w)) w) in
  first.1 = Returns pending ∧
  storage.getLocalEntries pending = storage.getLocalEntries w ++ [e] ∧
  (sheetsUrl w = "" →
     first.2 = None ∧
     currentScreen pending = "screen-done" ∧
     app.keydown dom net "Enter" text i w = Returns pending ∧
     keydown_begins dom "Enter" text' i' pending = (Returns pending, None)) ∧
  (sheetsUrl w ≠ "" →
     let p := {| sent := e; request := fetches w |} in
     first.2 = Some p ∧
     currentScreen pending = "screen-q5" ∧
     (let second := keydown_begins dom "Enter" text' i' pending in
      let e' :=
        app.new_entry i'
          (set_responses
             (<["free_response" := JStr (trim text')]> (responses pending))
             pending) in
      second.2 = Some {| sent := e'; request := S (fetches w) |} ∧
      storage.getLocalEntries (world_of second.1)
      = storage.getLocalEntries w ++ [e; e']) ∧
     (let settled := submit_settles dom net p pending in
      app.keydown dom net "Enter" text i w = Returns settled ∧
      currentScreen settled = "screen-done" ∧
      length (storage.getLocalEntries settled)
      = S (length (storage.getLocalEntries w)) ∧
      keydown_begins dom "Enter" text' i' settled = (Returns settled, None))).
Proof.
  intros Htext Hdone H5 first pending e.
  set (answered :=
         set_responses (<["free_response" := JStr (trim text)]> (responses w)) w).
  assert (Hfirst : first = ((Returns (submit_begins dom i answered).1),
                            (submit_begins dom i answered).2)).
  { unfold first, keydown_begins. rewrite H5, Htext. simpl.
    fold answered. by destruct (submit_begins dom i answered). }
  assert (Hpending : pending = (submit_begins dom i answered).1).
  { unfold pending. by rewrite Hfirst. }
  assert (Hatomic : app.keydown dom net "Enter" text i w
                    = Returns (resumes dom net (submit_begins dom i answered))).
  { rewrite submit_in_two_halves. unfold app.keydown, app.submitFreeResponse.
    by rewrite H5, Htext. }
  split; [rewrite Hpending; clear Hpending; subst pending; rewrite Hfirst; done|].
  destruct (decide (sheetsUrl w = "")) as [Hurl|Hurl].
  - assert (Hnow : submit_begins dom i answered
                   = (app.submit dom net i answered, None)).
    { rewrite <-submit_in_two_halves. unfold resumes, submit_begins.
      destruct (saveLocal_keeps dom (app.new_entry i answered) answered)
        as (Hu & _).
      rewrite Hu. change (sheetsUrl answered) with (sheetsUrl w).
      by rewrite decide_True by done. }
    assert (Hscreen : currentScreen pending = "screen-done").
    { rewrite Hpending, Hnow. by apply currentScreen_submit. }
    split_and!; [|intros _|by intros []].
    + rewrite Hpending, Hnow. simpl. rewrite getLocalEntries_submit, save_unfold.
      simpl. rewrite decide_True by done. simpl.
      by rewrite getLocalEntries_saveLocal.
    + split_and!; [by rewrite Hfirst, Hnow|done| |].
      * rewrite Hatomic, Hpending. unfold resumes. by rewrite Hnow.
      * unfold keydown_begins. by rewrite Hscreen.
  - destruct (submit_begins_pending dom i answered Hurl)
      as (Hp & Hscreen & Hresp & Hstart & Hurl' & Hfetches & Hentries).
    rewrite <-Hpending in Hscreen, Hresp, Hstart, Hurl', Hfetches, Hentries.
    split_and!; [exact Hentries|by intros ?|intros _ p].
    assert (Hsettled : resumes dom net (submit_begins dom i answered)
                       = submit_settles dom net p pending).
    { unfold resumes. by rewrite Hp, Hpending. }
    split_and!; [rewrite Hfirst; exact Hp|rewrite Hscreen; exact H5| |].
    + intros second e'.
      set (answered' :=
             set_responses
               (<["free_response" := JStr (trim text')]> (responses pending))
               pending).
      assert (Hsecond : second = ((Returns (submit_begins dom i' answered').1),
                                  (submit_begins dom i' answered').2)).
      { unfold second, keydown_begins.
        rewrite Hscreen. change (currentScreen answered) with (currentScreen w).
        rewrite H5, Htext. simpl.
        fold answered'. by destruct (submit_begins dom i' answered'). }
      assert (Hurl2 : sheetsUrl answered' ≠ "").
      { change (sheetsUrl answered') with (sheetsUrl pending). by rewrite Hurl'. }
      destruct (submit_begins_pending dom i' answered' Hurl2)
        as (Hp' & _ & _ & _ & _ & _ & Hentries').
      rewrite Hsecond. simpl. split.
      * rewrite Hp'. change (fetches answered') with (fetches pending).
        by rewrite Hfetches.
      * rewrite Hentries'.
        change (storage.getLocalEntries answered')
          with (storage.getLocalEntries pending).
        by rewrite Hentries, <-app_assoc.
    + intros settled. fold settled in Hsettled.
      rewrite Hsettled, submit_in_two_halves in *.
      assert (Hdone' : currentScreen settled = "screen-done").
      { rewrite <-Hsettled. by apply currentScreen_submit. }
      split_and!; [done|done| |].
      * rewrite <-Hsettled, getLocalEntries_submit.
        destruct (save_store dom net (app.new_entry i answered) answered)
          as (Hsame & _).
        apply Forall2_length in Hsame. rewrite <-Hsame, length_app. simpl.
        change (storage.getLocalEntries answered)
          with (storage.getLocalEntries w). lia.
      * unfold keydown_begins. by rewrite Hdone'.
Qed.

Lemma enter_is_ignored_once_the_request_settles_witness :
  let w := set_currentScreen "screen-q5" at_q4 in
  let pending :=
    world_of (keydown_begins every_element "Enter" "fine" sample_inputs w).1 in
  let settled :=
    world_of (app.keydown every_element always_fulfilled "Enter" "fine"
                sample_inputs w) in
  currentScreen pending = "screen-q5" ∧
  length (storage.getLocalEntries
            (world_of (keydown_begins every_element "Enter" "fine" later_inputs
                         pending).1))
  = S (S (length (storage.getLocalEntries w))) ∧
  keydown_begins every_element "Enter" "fine" later_inputs settled
  = (Returns settled, None).
Proof.
  destruct (enter_is_ignored_once_the_request_settles every_element
              always_fulfilled "fine" "fine" sample_inputs later_inputs
              (set_currentScreen "screen-q5" at_q4) eq_refl eq_refl eq_refl)
    as (_ & _ & _ & Hpending).
  destruct Hpending as (_ & Hscreen & (_ & Hsecond) & (Hatomic & _ & _ & Hignored));
    [discriminate|].
  split; [exact Hscreen|]. split.
  - rewrite Hsecond, !length_app. simpl. lia.
  - rewrite Hatomic. exact Hignored.
Defined.

(** * Further properties of the gateway *)

(** ** markAsSynced *)

Lemma list_find_after_alter entryId l i x :
  list_find (λ e, e_id e = entryId) l = Some (i, x) →
  list_find (λ e, e_id e = entryId) (alter set_synced i l)
  = Some (i, set_synced x).
Proof.
  intros (Hi & Hx & Hbefore)%list_find_Some.
  apply list_find_Some. split_and!.
  - by rewrite list_lookup_alter_eq, Hi.
  - done.
  - intros j y Hj Hlt. rewrite list_lookup_alter_ne in Hj by lia.
    by apply (Hbefore j).
Qed.

(** X11.  markAsSynced is idempotent, and for an identifier no stored
    entry carries it changes nothing at all: nothing is written to the
    store. *)
Theorem markAsSynced_idempotent (entryId : string) (w : world) :
  storage.markAsSynced entryId (storage.markAsSynced entryId w)
  = storage.markAsSynced entryId w ∧
  (entryId ∉ e_id <$> storage.getLocalEntries w →
   storage.markAsSynced entryId w = w).
Proof.
  split.
  - unfold storage.markAsSynced at 2 3.
    destruct (list_find _ (storage.getLocalEntries w)) as [[i x]|] eqn:Hfind.
    + unfold storage.markAsSynced.
      change (storage.getLocalEntries (set_ls_entries (Some ?l) w)) with l.
      rewrite (list_find_after_alter _ _ _ _ Hfind).
      rewrite list_alter_alter_eq.
      by rewrite (list_alter_ext (set_synced ∘ set_synced) set_synced
                    _ (storage.getLocalEntries w) i).
    + unfold storage.markAsSynced. by rewrite Hfind.
  - intros Hfresh. unfold storage.markAsSynced.
    destruct (list_find _ _) as [[i x]|] eqn:Hfind; [|done].
    apply list_find_Some in Hfind as (Hi & Hx & _).
    destruct Hfresh. apply list_elem_of_fmap. exists x. split; [done|].
    by apply list_elem_of_lookup_2 in Hi.
Qed.

(** ** syncAll, again *)

Lemma sheetsUrl_showStatus dom elementId message type w :
  sheetsUrl (storage.showStatus dom elementId message type w) = sheetsUrl w.
Proof. unfold storage.showStatus. by destruct (dom _). Qed.

Lemma fetches_showStatus dom elementId message type w :
  fetches (storage.showStatus dom elementId message type w) = fetches w.
Proof. unfold storage.showStatus. by destruct (dom _). Qed.

Lemma sheetsUrl_syncLoop net pending nsynced nfailed w :
  sheetsUrl (storage.syncLoop net pending nsynced nfailed w).2 = sheetsUrl w.
Proof.
  revert nsynced nfailed w.
  induction pending as [|e rest IH]; intros nsynced nfailed w; simpl; [done|].
  unfold storage.sendToSheets, storage.fetch.
  destruct (decide (sheetsUrl w = "")); [|destruct (net (fetches w))];
    rewrite IH; by rewrite ?sheetsUrl_markAsSynced.
Qed.

Lemma sheetsUrl_syncAll dom net w :
  sheetsUrl (storage.syncAll dom net w) = sheetsUrl w.
Proof.
  unfold storage.syncAll.
  destruct (decide (sheetsUrl w = "")); [by rewrite sheetsUrl_showStatus|].
  destruct (decide (length _ = 0%nat)); [by rewrite sheetsUrl_showStatus|].
  match goal with
  | |- context [storage.syncLoop net ?pending 0 0 ?w0] =>
      pose proof (sheetsUrl_syncLoop net pending 0 0 w0) as Hloop;
      destruct (storage.syncLoop net pending 0 0 w0) as [[nsynced nfailed] w1]
  end.
  rewrite sheetsUrl_showStatus in Hloop. simpl in Hloop.
  destruct (decide (nfailed = 0%nat)); by rewrite sheetsUrl_showStatus.
Qed.

Lemma unsynced_set_synced l : unsynced (set_synced <$> l) = [].
Proof.
  unfold unsynced. induction l as [|e l IH]; [done|].
  rewrite fmap_cons, filter_cons_False; [done|]. simpl. discriminate.
Qed.

(** X12.  After a syncAll() in which every request went through, nothing
    is left to send: a second syncAll() makes no request whatever the
    network would answer, leaves the store as it is and reports that all
    entries are already synced. *)
Theorem syncAll_twice_sends_once
    (dom : string → bool) (net net' : nat → settled) (w : world) :
  sheetsUrl w ≠ "" →
  dom "sync-status" = true →
  NoDup (e_id <$> storage.getLocalEntries w) →
  (∀ n, net n = Fulfilled) →
  let once := storage.syncAll dom net w in
  let twice := storage.syncAll dom net' once in
  fetches twice = fetches once ∧
  storage.getLocalEntries twice = storage.getLocalEntries once ∧
  head (log twice)
  = Some (ShowStatus "sync-status" "All entries already synced!" "success").
Proof.
  intros Hurl Hdom Hnd Hall once twice.
  assert (Honce : storage.getLocalEntries once
                  = set_synced <$> storage.getLocalEntries w).
  { destruct (syncAll_run dom net w Hurl Hdom) as (_ & _ & Hstore).
    unfold once. rewrite Hstore, foldl_mark_first by done.
    rewrite delivered_all by done. apply flag_all_unsynced. }
  assert (Htwice : twice
    = storage.showStatus dom "sync-status" "All entries already synced!"
        "success" once).
  { unfold twice, storage.syncAll.
    rewrite decide_False by (unfold once; by rewrite sheetsUrl_syncAll).
    rewrite Honce. fold (unsynced (set_synced <$> storage.getLocalEntries w)).
    by rewrite unsynced_set_synced. }
  rewrite Htwice, fetches_showStatus, getLocalEntries_showStatus.
  by rewrite showStatus_present.
Qed.

Lemma syncAll_twice_sends_once_witness :
  let once := storage.syncAll every_element always_fulfilled two_pending in
  fetches (storage.syncAll every_element always_rejected once) = fetches once.
Proof.
  apply (syncAll_twice_sends_once every_element always_fulfilled always_rejected
           two_pending);
    [discriminate | reflexivity | | intros n; reflexivity].
  apply (bool_decide_unpack _). vm_compute. exact I.
Defined.

(** ** The network *)

(** X13.  Without an endpoint no gateway operation touches the network:
    while the configured URL is empty, save, syncAll, testConnection and
    every other operation make no request. *)
Theorem no_endpoint_no_request
    (dom : string → bool) (net : nat → settled)
    (stringify_pretty : list entry → string) (op : gateway_op) (w : world) :
  sheetsUrl w = "" →
  fetches (run_op dom net stringify_pretty op w) = fetches w.
Proof.
  intros Hurl.
  destruct op as [|value| |e|e|entryId| |iso|iso|answer| |elementId message type];
    simpl.
  - unfold storage.init, storage.updateLocalCount.
    destruct (ls_config w) as [[raw|url]|]; [destruct (decide (raw = ""))|..];
      simpl; repeat destruct (dom _); done.
  - unfold storage.saveConfig.
    destruct (dom "sheets-url"); by rewrite ?fetches_showStatus.
  - unfold storage.testConnection. rewrite decide_True by done.
    by rewrite fetches_showStatus.
  - unfold storage.saveLocal, storage.updateLocalCount. by destruct (dom _).
  - rewrite save_unfold. simpl. rewrite decide_True by done. simpl.
    unfold storage.saveLocal, storage.updateLocalCount. by destruct (dom _).
  - apply fetches_markAsSynced.
  - unfold storage.syncAll. rewrite decide_True by done.
    by rewrite fetches_showStatus.
  - unfold storage.exportCSV. destruct (decide _); [done|].
    by destruct (mapM _ _).
  - unfold storage.exportJSON. by destruct (decide _).
  - unfold storage.clearLocal, storage.updateLocalCount.
    destruct answer; simpl; [|done].
    rewrite fetches_showStatus. by destruct (dom _).
  - unfold storage.updateLocalCount. by destruct (dom _).
  - apply fetches_showStatus.
Qed.

Lemma no_endpoint_no_request_witness :
  fetches (run_op every_element always_fulfilled (λ _, "[]") (OpSave sample_entry)
             (set_sheetsUrl "" two_pending))
  = fetches (set_sheetsUrl "" two_pending).
Proof.
  apply (no_endpoint_no_request every_element always_fulfilled (λ _, "[]")
           (OpSave sample_entry) (set_sheetsUrl "" two_pending)).
  reflexivity.
Defined.

(** ** The stored configuration *)

(** X14.  Round trip of the endpoint: the URL saveConfig() stores - the
    content of the input with the white space and line terminators of
    String.prototype.trim removed from both ends - is the URL init()
    configures at the next page load, in place of the URL built into the
    script; init returns normally and shows it in the input again. *)
Theorem saved_endpoint_is_restored
    (dom dom' : string → bool) (value : string) (w : world) :
  dom "sheets-url" = true →
  let saved := storage.saveConfig dom value w in
  sheetsUrl saved = trim value ∧
  ∃ loaded, storage.init dom' (reload saved) = Returns loaded ∧
            sheetsUrl loaded = trim value ∧
            ls_config loaded = Some (Parsed (trim value)) ∧
            (dom' "sheets-url" = true →
             SetValue "sheets-url" (trim value) ∈ log loaded).
Proof.
  intros Hdom saved.
  assert (Hsaved : sheetsUrl saved = trim value ∧
                   ls_config saved = Some (Parsed (trim value))).
  { unfold saved, storage.saveConfig. rewrite Hdom.
    unfold storage.showStatus. by destruct (dom "connection-status"). }
  destruct Hsaved as [Hurl Hconfig]. split; [done|].
  unfold storage.init, reload. simpl. rewrite Hconfig.
  eexists. split; [done|].
  unfold storage.updateLocalCount.
  destruct (dom' "sheets-url") eqn:Hinput; destruct (dom' "local-count");
    simpl; split_and!; try done; intros _; set_solver.
Qed.

Lemma saved_endpoint_is_restored_witness :
  sheetsUrl (storage.saveConfig every_element pasted_endpoint initial_world)
  = "https://example.org/exec".
Proof.
  apply (saved_endpoint_is_restored every_element every_element
           pasted_endpoint initial_world).
  reflexivity.
Defined.

(** ** The CSV export, again *)

Lemma string_length_app (s t : string) :
  String.length (s +:+ t) = (String.length s + String.length t)%nat.
Proof.
  induction s as [|c s IH]; [done|].
  change (String c s +:+ t) with (String c (s +:+ t)). simpl. by rewrite IH.
Qed.

Lemma app_inj_r (s1 s2 t : string) : s1 +:+ t = s2 +:+ t → s1 = s2.
Proof.
  revert s2. induction s1 as [|c1 s1 IH]; intros [|c2 s2] Heq; [done|..].
  - exfalso. apply (f_equal String.length) in Heq.
    rewrite !string_length_app in Heq. simpl in Heq. lia.
  - exfalso. apply (f_equal String.length) in Heq.
    rewrite !string_length_app in Heq. simpl in Heq. lia.
  - change (String c1 (s1 +:+ t) = String c2 (s2 +:+ t)) in Heq.
    injection Heq as -> Heq. by rewrite (IH s2 Heq).
Qed.

Lemma double_quotes_inj s s' : double_quotes s = double_quotes s' → s = s'.
Proof.
  revert s'. induction s as [|c s IH]; intros [|c' s'] Heq; simpl in Heq.
  - done.
  - by destruct (decide (c' = dquote)).
  - by destruct (decide (c = dquote)).
  - destruct (decide (c = dquote)) as [->|Hc];
      destruct (decide (c' = dquote)) as [->|Hc'].
    + injection Heq as Heq. by rewrite (IH s' Heq).
    + injection Heq as Hcc _. by destruct Hc'.
    + injection Heq as Hcc _. by destruct Hc.
    + injection Heq as -> Heq. by rewrite (IH s' Heq).
Qed.

(** X15.  The notes cell of the CSV export loses nothing: two notes that
    are different strings give different quoted cells (every quotation
    mark is doubled, nothing else is changed or dropped). *)
Theorem quoted_notes_is_injective (s s' : string) :
  s ≠ s' → storage.quoted_notes (JStr s) ≠ storage.quoted_notes (JStr s').
Proof.
  assert (Hq : ∀ x, storage.quoted_notes (JStr x)
                    = Some (String dquote (double_quotes x +:+ String dquote ""))).
  { intros x. unfold storage.quoted_notes. simpl.
    by case_bool_decide as Hx; [rewrite Hx|]. }
  rewrite !Hq. intros Hne [= Heq]. apply Hne.
  by apply double_quotes_inj, (app_inj_r _ _ (String dquote "")).
Qed.

Lemma quoted_notes_is_injective_witness :
  storage.quoted_notes (JStr (String "a" (String dquote "b")))
  ≠ storage.quoted_notes (JStr (String "a" (String dquote (String dquote "b")))).
Proof.
  apply (quoted_notes_is_injective (String "a" (String dquote "b"))
           (String "a" (String dquote (String dquote "b")))).
  discriminate.
Defined.

Lemma before_T_app date rest :
  occurs "T" date = false →
  storage.before_T (date +:+ String "T" rest) = date.
Proof.
  induction date as [|c date IH]; intros Hno.
  - done.
  - change (String c date +:+ String "T" rest)
      with (String c (date +:+ String "T" rest)).
    simpl in *. apply orb_false_iff in Hno as [Hc Hno].
    apply bool_decide_eq_false in Hc.
    rewrite decide_False by done. by rewrite IH.
Qed.

Lemma before_T_no_T iso : occurs "T" (storage.before_T iso) = false.
Proof.
  induction iso as [|c iso IH]; [done|]. simpl.
  destruct (decide (c = "T"%char)) as [|Hc]; [done|]. simpl.
  by rewrite bool_decide_eq_false_2.
Qed.

(** X16.  getDateString cuts an ISO timestamp at its first T: for a
    timestamp made of a date without T, a T and anything after it, the
    result is the date; in every case the result contains no T. *)
Theorem getDateString_is_the_date_part (date rest iso : string) :
  occurs "T" date = false →
  storage.getDateString (date +:+ String "T" rest) = date ∧
  app.getDateString (date +:+ String "T" rest) = date ∧
  occurs "T" (storage.getDateString iso) = false.
Proof.
  intros Hno. unfold app.getDateString, storage.getDateString.
  rewrite before_T_app by done. split_and!; [done..|apply before_T_no_T].
Qed.

Lemma getDateString_is_the_date_part_witness :
  storage.getDateString ("2025-11-03" +:+ String "T" "10:01:01.500Z")
  = "2025-11-03".
Proof.
  apply (getDateString_is_the_date_part "2025-11-03" "10:01:01.500Z" "").
  reflexivity.
Defined.

Lemma quoted_notes_None v :
  storage.quoted_notes v = None ↔ ∃ n, v = JNum n ∧ n ≠ 0.
Proof.
  unfold storage.quoted_notes. destruct v as [|n|s]; simpl.
  - split; [done|]. by intros (n & ? & _).
  - case_bool_decide as Hn; simpl.
    + split; [done|]. intros (n' & [= <-] & Hne). done.
    + split; [intros _; by exists n|done].
  - case_bool_decide; (split; [done|]); by intros (n & ? & _).
Qed.

Lemma csv_row_line e :
  (∀ n, get (e_responses e) "free_response" = JNum n → n = 0) →
  ∃ cells, storage.csv_row e = Some cells ∧
           join "," cells = data_line e (note_of e).
Proof.
  intros Hnote. unfold storage.csv_row, storage.quoted_notes, note_of, data_line.
  destruct (get (e_responses e) "free_response") as [|n|s]; simpl.
  - eexists. split; reflexivity.
  - rewrite (Hnote n eq_refl). simpl. eexists. split; reflexivity.
  - case_bool_decide as Hs; simpl; [rewrite Hs|]; eexists; split; reflexivity.
Qed.

Lemma csv_rows_lines entries :
  Forall (λ e, ∀ n, get (e_responses e) "free_response" = JNum n → n = 0)
    entries →
  ∃ rows, mapM storage.csv_row entries = Some rows ∧
          join "," <$> rows = (λ e, data_line e (note_of e)) <$> entries.
Proof.
  induction 1 as [|e entries He _ (rows & Hrows & Hlines)].
  - by exists [].
  - destruct (csv_row_line e He) as (cells & Hcells & Hline).
    exists (cells :: rows). split.
    + apply mapM_Some. constructor; [done|]. by apply mapM_Some.
    + by rewrite !fmap_cons, Hline, Hlines.
Qed.

(** X17.  The CSV export of a non-empty store in which no note is a
    non-zero number is one download: the header line and then one data
    line per Entry, in store order, joined by line breaks; the file is
    named after the current date. *)
Theorem exportCSV_one_line_per_entry (iso : string) (w : world) :
  storage.getLocalEntries w ≠ [] →
  Forall (λ e, ∀ n, get (e_responses e) "free_response" = JNum n → n = 0)
    (storage.getLocalEntries w) →
  storage.exportCSV iso w
  = Returns
      (emit (Download
               (join storage.newline
                  (header_line ::
                   ((λ e, data_line e (note_of e)) <$> storage.getLocalEntries w)))
               ("carmel-checkin-" +:+ storage.getDateString iso +:+ ".csv")
               "text/csv") w).
Proof.
  intros Hne Hnotes. unfold storage.exportCSV.
  rewrite decide_False by (by destruct (storage.getLocalEntries w)).
  destruct (csv_rows_lines _ Hnotes) as (rows & -> & Hlines).
  unfold storage.csvContent, storage.downloadFile.
  change (map (join ",") rows) with (join "," <$> rows).
  by rewrite Hlines, join_headers.
Qed.

Lemma exportCSV_one_line_per_entry_witness :
  ∃ content,
    storage.exportCSV "2025-11-04T08:00:00.000Z" two_pending
    = Returns (emit (Download content "carmel-checkin-2025-11-04.csv" "text/csv")
                 two_pending).
Proof.
  eexists.
  rewrite (exportCSV_one_line_per_entry "2025-11-04T08:00:00.000Z" two_pending).
  - reflexivity.
  - discriminate.
  - repeat constructor; intros n Hn; vm_compute in Hn; discriminate Hn.
Defined.

(** X18.  The CSV export ends in a TypeError, and produces no file,
    exactly when the note of some stored Entry is a non-zero number (the
    quoting calls replace on it); the world is left as it was. *)
Theorem exportCSV_throws_on_numeric_note (iso : string) (w : world) :
  storage.exportCSV iso w = Throws "TypeError" w ↔
  Exists (λ e, ∃ n, get (e_responses e) "free_response" = JNum n ∧ n ≠ 0)
    (storage.getLocalEntries w).
Proof.
  unfold storage.exportCSV.
  destruct (decide (length (storage.getLocalEntries w) = 0%nat)) as [Hlen|Hlen].
  - split; [done|].
    destruct (storage.getLocalEntries w); [by intros ?%Exists_nil|done].
  - destruct (mapM storage.csv_row (storage.getLocalEntries w)) as [rows|] eqn:Hrows.
    + split; [done|]. intros Hbad. exfalso.
      assert (mapM storage.csv_row (storage.getLocalEntries w) = None);
        [|congruence].
      apply mapM_None. eapply Exists_impl; [done|].
      intros e He. unfold storage.csv_row.
      by rewrite (proj2 (quoted_notes_None _) He).
    + split; [intros _|done].
      apply mapM_None in Hrows. eapply Exists_impl; [done|].
      intros e He. apply quoted_notes_None.
      unfold storage.csv_row in He.
      by destruct (storage.quoted_notes _).
Qed.

(** ** The label tables of the two scripts *)

Lemma pretty_N_go_letter_n x s :
  occurs "n" (pretty_N_go x s) = occurs "n" s.
Proof.
  revert s. induction (N.lt_wf_0 x) as [x _ IH]; intros s.
  assert (x = 0 ∨ 0 < x)%N as [->|Hpos] by lia.
  - by rewrite pretty_N_go_0.
  - rewrite pretty_N_go_step by done.
    rewrite IH by (by apply N.div_lt). simpl.
    unfold pretty_N_char. by repeat case_match.
Qed.

Lemma pretty_Z_letter_n (z : Z) : occurs "n" (pretty z) = false.
Proof.
  unfold pretty, pretty_Z. destruct z as [|p|p]; [done|..].
  - unfold pretty, pretty_positive, pretty, pretty_N.
    case_decide; [done|]. by rewrite pretty_N_go_letter_n.
  - rewrite occurs_app. simpl.
    unfold pretty, pretty_positive, pretty, pretty_N.
    case_decide; [done|]. by rewrite pretty_N_go_letter_n.
Qed.

Lemma property_key_na v : storage.property_key v = "n/a" → v = JStr "n/a".
Proof.
  destruct v as [|n|s]; simpl; [done| |by intros ->].
  intros H. pose proof (pretty_Z_letter_n n) as Hn. by rewrite H in Hn.
Qed.

(** X19.  The CSV export and the sheet row label the answers alike: the
    social answer always, the coping answer for every value but n/a,
    which the export spells N/A (no dysregulation) and the sheet N/A. *)
Theorem export_and_sheet_labels_agree (v : jsval) :
  storage.formatSocialResponse v = gas.formatSocialResponse v ∧
  (v ≠ JStr "n/a" →
   storage.formatCopingResponse v = gas.formatCopingResponse v) ∧
  storage.formatCopingResponse (JStr "n/a") = JStr "N/A (no dysregulation)" ∧
  gas.formatCopingResponse (JStr "n/a") = JStr "N/A".
Proof.
  split_and!; [done| |done|done].
  intros Hv.
  unfold storage.formatCopingResponse, gas.formatCopingResponse,
    storage.label_or_value.
  assert (Hmap : storage.coping_labels
                 = <["n/a" := "N/A (no dysregulation)"]> gas.coping_labels)
    by reflexivity.
  rewrite Hmap, lookup_insert_ne; [done|].
  intros Hkey. symmetry in Hkey. by apply property_key_na in Hkey.
Qed.

Lemma export_and_sheet_labels_agree_witness :
  storage.formatCopingResponse (JStr "yes_helped")
  = gas.formatCopingResponse (JStr "yes_helped").
Proof.
  apply (export_and_sheet_labels_agree (JStr "yes_helped")). discriminate.
Defined.

(** ** The device class *)

Lemma includes_ci_app pattern before rest :
  starts_with_ci pattern rest = true →
  includes_ci pattern (before +:+ rest) = true.
Proof.
  intros Hstart. induction before as [|c before IH].
  - change ("" +:+ rest) with rest. destruct rest; simpl; by rewrite Hstart.
  - change (String c before +:+ rest) with (String c (before +:+ rest)).
    simpl. rewrite IH. apply orb_true_r.
Qed.

Lemma starts_with_ci_app word rest :
  starts_with_ci (lower_string word) (word +:+ rest) = true.
Proof.
  induction word as [|c word IH]; [done|].
  change (String c word +:+ rest) with (String c (word +:+ rest)).
  simpl. by rewrite bool_decide_eq_true_2, IH.
Qed.

(** X20.  The tablet words win: a user agent that contains tablet, ipad,
    playbook or silk in any letter case is classed as a tablet, whatever
    stands before and after it - the word mobile included. *)
Theorem tablet_words_take_precedence (before word after : string) :
  lower_string word ∈ tablet_words →
  getDeviceType (before +:+ word +:+ after) = "tablet".
Proof.
  intros Hword. unfold getDeviceType.
  assert (Hfound : existsb (λ w, includes_ci w (before +:+ word +:+ after))
                     tablet_words = true).
  { apply existsb_exists. exists (lower_string word). split.
    - by apply list_elem_of_In.
    - apply includes_ci_app, starts_with_ci_app. }
  by rewrite Hfound.
Qed.

Lemma tablet_words_take_precedence_witness :
  getDeviceType
    ("Mozilla/5.0 (" +:+ "iPad" +:+ "; CPU OS 17_0 like Mac OS X) Mobile/15E148")
  = "tablet".
Proof.
  apply (tablet_words_take_precedence "Mozilla/5.0 (" "iPad"
           "; CPU OS 17_0 like Mac OS X) Mobile/15E148").
  apply (bool_decide_unpack _). vm_compute. exact I.
Defined.

(** * Properties of the spreadsheet backend *)

Lemma new_spreadsheet_data_sheet :
  gas.setupNewSpreadsheet !! gas.SHEET_NAME = Some [gas.headers].
Proof. reflexivity. Qed.

Lemma getOrCreateSheet_rows drive :
  ∃ file, gas.getOrCreateSheet drive
          = (file, default [gas.headers] (gas.data_sheet drive)).
Proof.
  unfold gas.getOrCreateSheet, gas.data_sheet.
  destruct drive as [file|].
  - change (Some file ≫= λ f, f !! gas.SHEET_NAME) with (file !! gas.SHEET_NAME).
    destruct (file !! gas.SHEET_NAME) as [rows|]; eexists; reflexivity.
  - rewrite new_spreadsheet_data_sheet. eexists. reflexivity.
Qed.

Lemma data_sheet_saveCheckIn isoDate isoTime data drive :
  gas.data_sheet (gas.saveCheckIn isoDate isoTime data drive).2
  = Some (default [gas.headers] (gas.data_sheet drive)
          ++ [gas.check_in_row isoDate isoTime data]).
Proof.
  unfold gas.saveCheckIn.
  destruct (getOrCreateSheet_rows drive) as [file ->].
  unfold gas.data_sheet at 1.
  change (Some ?f ≫= λ f', f' !! gas.SHEET_NAME) with (f !! gas.SHEET_NAME).
  apply lookup_insert_eq.
Qed.

Lemma data_sheet_doPost msg isoDate isoTime contents drive :
  gas.data_sheet (gas.doPost msg isoDate isoTime contents drive).2
  = match gas.check_in_rows [(isoDate, isoTime, contents)] with
    | [] => gas.data_sheet drive
    | rows => Some (default [gas.headers] (gas.data_sheet drive) ++ rows)
    end.
Proof.
  destruct contents as [raw|data]; [done|].
  destruct (truthy (gas.d_test data)) eqn:Htest.
  - assert (Hrows : gas.check_in_rows [(isoDate, isoTime, Parsed data)] = [])
      by (unfold gas.check_in_rows; simpl; by rewrite Htest).
    rewrite Hrows. unfold gas.doPost. by rewrite Htest.
  - assert (Hrows : gas.check_in_rows [(isoDate, isoTime, Parsed data)]
                    = [gas.check_in_row isoDate isoTime data])
      by (unfold gas.check_in_rows; simpl; by rewrite Htest).
    rewrite Hrows. unfold gas.doPost. rewrite Htest.
    apply data_sheet_saveCheckIn.
Qed.

Lemma check_in_rows_cons post posts :
  gas.check_in_rows (post :: posts)
  = gas.check_in_rows [post] ++ gas.check_in_rows posts.
Proof.
  unfold gas.check_in_rows. simpl.
  by destruct (match post.2 with Parsed _ => _ | Malformed _ => _ end).
Qed.

Lemma data_sheet_serve
    (msg : string → string) (posts : list (string * string * blob gas.posted))
    (drive : option gas.spreadsheet) :
  gas.data_sheet (gas.serve msg posts drive)
  = match gas.check_in_rows posts with
    | [] => gas.data_sheet drive
    | rows => Some (default [gas.headers] (gas.data_sheet drive) ++ rows)
    end.
Proof.
  revert drive. induction posts as [|[[isoDate isoTime] contents] posts IH];
    intros drive; [done|].
  change (gas.serve msg ((isoDate, isoTime, contents) :: posts) drive)
    with (gas.serve msg posts
            (gas.doPost msg isoDate isoTime contents drive).2).
  rewrite IH, data_sheet_doPost,
    (check_in_rows_cons (isoDate, isoTime, contents) posts).
  destruct (gas.check_in_rows [(isoDate, isoTime, contents)]) as [|row rows];
    simpl; [done|].
  destruct (gas.check_in_rows posts) as [|row' rows']; simpl.
  - by rewrite app_nil_r.
  - by rewrite <-app_assoc.
Qed.


Lemma check_in_rows_width posts :
  Forall (λ r, length r = 11%nat) (gas.check_in_rows posts).
Proof.
  induction posts as [|post posts IH]; [constructor|].
  rewrite check_in_rows_cons. apply Forall_app. split; [|done].
  unfold gas.check_in_rows. simpl.
  destruct (post.2) as [raw|data]; [constructor|].
  destruct (truthy (gas.d_test data)); repeat constructor.
Qed.

(** X22.  The data sheet keeps its shape: if it starts with the header
    row and every row has the eleven cells of the header, it still does
    after any sequence of requests; a sheet the script creates itself
    has that shape from the first check-in on. *)
Theorem data_sheet_keeps_its_shape
    (msg : string → string) (posts : list (string * string * blob gas.posted))
    (drive : option gas.spreadsheet) :
  gas.well_formed drive →
  gas.well_formed (gas.serve msg posts drive).
Proof.
  intros Hwf rows. rewrite data_sheet_serve.
  pose proof (check_in_rows_width posts) as Hwidth.
  destruct (gas.check_in_rows posts) as [|row new]; [apply Hwf|].
  intros [= <-].
  destruct (gas.data_sheet drive) as [old|] eqn:Hold; simpl.
  - destruct (Hwf old Hold) as [Hhead Hall].
    split; [|by apply Forall_app].
    by destruct old.
  - split; [done|]. by constructor.
Qed.

Lemma data_sheet_keeps_its_shape_witness :
  gas.well_formed
    (gas.serve (λ _, "Unexpected token")
       [("2025-11-03T10:01:02.000Z", "2025-11-03T10:01:02.001Z",
         Parsed (gas.body_of answered_entry));
        ("2025-11-03T10:01:03.000Z", "2025-11-03T10:01:03.001Z",
         Malformed "{")]
       None).
Proof.
  apply (data_sheet_keeps_its_shape (λ _, "Unexpected token")).
  intros rows Hrows. discriminate Hrows.
Defined.

(** X23.  A submitted entry that reaches the server is recorded under
    its identifier: the request the client sends for an Entry built by
    submit() appends one row of eleven cells whose Entry ID cell is the
    identifier of the Entry, whatever the state of the drive. *)
Theorem posted_entry_is_recorded_under_its_id
    (msg : string → string) (isoDate isoTime : string)
    (i : app.submit_inputs) (w : world) (drive : option gas.spreadsheet) :
  let e := app.new_entry i w in
  let served := gas.doPost msg isoDate isoTime (Parsed (gas.body_of e)) drive in
  ∃ row,
    gas.data_sheet served.2
    = Some (default [gas.headers] (gas.data_sheet drive) ++ [row]) ∧
    length row = 11%nat ∧
    row !! 8%nat = Some (JStr (e_id e)) ∧
    gas.r_success served.1 = true ∧
    gas.r_entryId served.1 = Some (JStr (e_id e)).
Proof.
  intros e served.
  exists (gas.check_in_row isoDate isoTime (gas.body_of e)).
  split_and!.
  - unfold served. by rewrite data_sheet_doPost.
  - done.
  - reflexivity.
  - unfold served, gas.doPost, gas.saveCheckIn. simpl.
    by destruct (gas.getOrCreateSheet drive).
  - unfold served, gas.doPost, gas.saveCheckIn. simpl.
    by destruct (gas.getOrCreateSheet drive).
Qed.

(** * A stored identifier saved again *)

(** X24.  markAsSynced looks the identifier up from the start of the
    store: when save() is given an entry whose identifier is already
    stored and the request goes through, the result says synced and the
    flag is raised on the older entry - the entry just appended is
    stored as it was given, unsynced if it was. *)
Theorem save_of_a_stored_id_flags_the_older_entry
    (dom : string → bool) (net : nat → settled) (e older : entry)
    (index : nat) (w : world) :
  sheetsUrl w ≠ "" →
  net (fetches w) = Fulfilled →
  list_find (λ x, e_id x = e_id e) (storage.getLocalEntries w)
    = Some (index, older) →
  storage.synced (storage.save dom net e w).1 = true ∧
  storage.getLocalEntries (storage.save dom net e w).2
  = alter set_synced index (storage.getLocalEntries w) ++ [e].
Proof.
  intros Hurl Hnet Hfind.
  assert (Hsynced : storage.synced (storage.save dom net e w).1 = true).
  { rewrite save_unfold. simpl. by rewrite decide_False, Hnet. }
  split; [done|].
  destruct (save_store dom net e w) as (_ & _ & Hstore).
  rewrite (Hstore Hsynced). unfold mark_first.
  rewrite (list_find_app_l _ _ [e] _ _ Hfind).
  apply alter_app_l.
  apply list_find_Some in Hfind as (Hindex & _).
  by apply lookup_lt_Some in Hindex.
Qed.

Lemma save_of_a_stored_id_flags_the_older_entry_witness :
  let w := storage.saveLocal every_element sample_entry initial_world in
  storage.getLocalEntries
    (storage.save every_element always_fulfilled sample_entry w).2
  = [set_synced sample_entry; sample_entry].
Proof.
  apply (save_of_a_stored_id_flags_the_older_entry every_element always_fulfilled
           sample_entry sample_entry 0
           (storage.saveLocal every_element sample_entry initial_world));
    [discriminate | reflexivity | reflexivity].
Defined.
